(** * Cherokee Nation chat backend: conversation orchestrator, webhook,
      ingestion consumer and vector store, embedded from the Python sources
      (base/app/main.py, pii_check.py, utils.py, services.py, subscriber.py,
      vector_store.py). *)

From Stdlib Require Import ZArith NArith List String Ascii Bool Lia.
From stdpp Require Import gmap list.

Set Default Proof Using "Type".
Local Open Scope N_scope.

(** ** Python strings *)

Module Py.

(** A Python [str] is a sequence of code points.  Lone surrogates, which
    [str.encode('utf-8')] refuses, are not meant to occur in a [pystr]. *)
Definition pystr := list N.

Definition of_string (s : string) : pystr :=
  List.map N_of_ascii (list_ascii_of_string s).

(** What the interpreter's Unicode tables decide and this development does
    not spell out: the decimal digits ([\d]), the alphanumerics (the word
    characters of [\w] and [\b], underscore apart), [str.lower] and
    [str.title]. *)
Class UnicodeData := {
  uc_decimal : N -> bool;
  uc_alnum : N -> bool;
  uc_lower : pystr -> pystr;
  uc_title : pystr -> pystr
}.

(** The code point of a one-character literal. *)
Definition c_ (s : string) : N :=
  match s with String a _ => N_of_ascii a | EmptyString => 0 end.

Definition in_range (lo hi c : N) : bool := (lo <=? c) && (c <=? hi).

Definition ascii_digit (c : N) : bool := in_range 48 57 c.
Definition ascii_upper (c : N) : bool := in_range 65 90 c.
Definition ascii_lower (c : N) : bool := in_range 97 122 c.
Definition ascii_alnum (c : N) : bool :=
  ascii_digit c || ascii_upper c || ascii_lower c.

(** [str.isspace], which is also the [\s] of a str pattern. *)
Definition isspace (c : N) : bool :=
  in_range 9 13 c || in_range 28 32 c || (c =? 133) || (c =? 160)
  || (c =? 5760) || in_range 8192 8202 c || (c =? 8232) || (c =? 8233)
  || (c =? 8239) || (c =? 8287) || (c =? 12288).

Fixpoint lstrip (s : pystr) : pystr :=
  match s with
  | c :: t => if isspace c then lstrip t else s
  | [] => []
  end.
Definition rstrip (s : pystr) : pystr := rev (lstrip (rev s)).
Definition strip (s : pystr) : pystr := rstrip (lstrip s).

Definition len (s : pystr) : Z := Z.of_nat (length s).

Definition eqb (a b : pystr) : bool := bool_decide (a = b).

Fixpoint startswith (s p : pystr) : bool :=
  match p, s with
  | [], _ => true
  | _ :: _, [] => false
  | x :: p', y :: s' => (x =? y) && startswith s' p'
  end.

(** [sub in s] *)
Fixpoint contains (s sub : pystr) : bool :=
  startswith s sub ||
  match s with
  | [] => false
  | _ :: t => contains t sub
  end.

(** [s.split(sep)] for a one-character separator. *)
Fixpoint split (sep : N) (s : pystr) : list pystr :=
  match s with
  | [] => [[]]
  | c :: t =>
      if c =? sep then [] :: split sep t
      else match split sep t with
           | [] => [[c]]
           | w :: ws => (c :: w) :: ws
           end
  end.

Definition upper_ascii (s : pystr) : pystr :=
  List.map (fun c => if ascii_lower c then c - 32 else c) s.

Definition lower_ascii (s : pystr) : pystr :=
  List.map (fun c => if ascii_upper c then c + 32 else c) s.

(** The tables restricted to ASCII: every other code point is taken as
    neither digit nor letter and as caseless.  It agrees with the
    interpreter on ASCII text. *)
Fixpoint title_ascii (prev_cased : bool) (s : pystr) : pystr :=
  match s with
  | [] => []
  | c :: t =>
      let c' :=
        if prev_cased then (if ascii_upper c then c + 32 else c)
        else (if ascii_lower c then c - 32 else c) in
      c' :: title_ascii (ascii_upper c || ascii_lower c) t
  end.

Definition ascii_only : UnicodeData := {|
  uc_decimal := ascii_digit;
  uc_alnum := ascii_alnum;
  uc_lower := lower_ascii;
  uc_title := title_ascii false
|}.

End Py.
Export Py.

(** ** A backtracking matcher for the regular expressions of the sources *)

Module Re.

Inductive citem :=
| Ch (c : N)
| Rg (lo hi : N)
| Dg
| Sp
| Wd.

Inductive re :=
| Eps
| Set_ (neg : bool) (items : list citem)
| Any (dotall : bool)
| Seq (r1 r2 : re)
| Alt (r1 r2 : re)
| Star (greedy : bool) (r : re)
| Bol
| Eol (multiline : bool)
| WordB
| Look (positive : bool) (r : re)
| Grp (r : re).

(** Where the matcher stands: the character before the position, the text
    from the position on, and what group 1 holds. *)
Record ctx := Ctx { prev : option N; rest : pystr; cap : option pystr }.

Section Matcher.
Context `{U : UnicodeData}.

Definition is_word (c : N) : bool := uc_alnum c || (c =? 95).

Definition in_item (c : N) (i : citem) : bool :=
  match i with
  | Ch x => c =? x
  | Rg lo hi => in_range lo hi c
  | Dg => uc_decimal c
  | Sp => isspace c
  | Wd => is_word c
  end.

Definition word_opt (o : option N) : bool :=
  match o with Some c => is_word c | None => false end.

Definition at_boundary (c : ctx) : bool :=
  xorb (word_opt (prev c)) (word_opt (head (rest c))).

(** [rmatch r k c]: match [r] at [c] and hand the position reached to [k];
    alternatives are tried in the order Python's engine tries them. *)
Fixpoint rmatch (R : Type) (r : re) (k : ctx -> option R) (c : ctx)
  {struct r} : option R :=
  match r with
  | Eps => k c
  | Set_ neg items =>
      match rest c with
      | x :: t =>
          if xorb neg (existsb (in_item x) items)
          then k (Ctx (Some x) t (cap c)) else None
      | [] => None
      end
  | Any dotall =>
      match rest c with
      | x :: t =>
          if dotall || negb (x =? 10)
          then k (Ctx (Some x) t (cap c)) else None
      | [] => None
      end
  | Seq r1 r2 => rmatch R r1 (rmatch R r2 k) c
  | Alt r1 r2 =>
      match rmatch R r1 k c with
      | Some v => Some v
      | None => rmatch R r2 k c
      end
  | Star greedy r1 =>
      (fix loop (n : nat) (c : ctx) {struct n} : option R :=
         let iterate (_ : unit) :=
           match n with
           | O => None
           | S n' =>
               rmatch R r1
                 (fun c' =>
                    if (length (rest c') <? length (rest c))%nat
                    then loop n' c' else None) c
           end in
         if greedy then
           match iterate tt with
           | Some v => Some v
           | None => k c
           end
         else
           match k c with
           | Some v => Some v
           | None => iterate tt
           end) (length (rest c)) c
  | Bol => match prev c with None => k c | Some _ => None end
  | Eol multiline =>
      match rest c with
      | [] => k c
      | x :: t =>
          if (x =? 10) && (multiline || bool_decide (t = []))
          then k c else None
      end
  | WordB => if at_boundary c then k c else None
  | Look positive r1 =>
      match rmatch unit r1 (fun _ => Some tt) c, positive with
      | Some _, true | None, false => k c
      | _, _ => None
      end
  | Grp r1 =>
      rmatch R r1
        (fun c' =>
           k (Ctx (prev c') (rest c')
                (Some (take (length (rest c) - length (rest c')) (rest c)))))
        c
  end.

Definition start (s : pystr) : ctx := Ctx None s None.

(** [pattern.search(s)], scanning from the position [c]: the position the
    leftmost match ends at, with the text it covers. *)
Fixpoint search_at (r : re) (c : ctx) (n : nat) : option (pystr * ctx) :=
  match rmatch ctx r Some (Ctx (prev c) (rest c) None) with
  | Some c' => Some (take (length (rest c) - length (rest c')) (rest c), c')
  | None =>
      match n, rest c with
      | S n', x :: t => search_at r (Ctx (Some x) t None) n'
      | _, _ => None
      end
  end.

Definition search (r : re) (s : pystr) : bool :=
  bool_decide (is_Some (search_at r (start s) (length s))).

(** [match.group(1)] of [pattern.search(s)]. *)
Definition search_group (r : re) (s : pystr) : option pystr :=
  match search_at r (start s) (length s) with
  | Some (_, c') => cap c'
  | None => None
  end.

(** [pattern.sub(repl, s)]: the non-overlapping matches, leftmost first,
    each replaced by what [repl] makes of the match; an empty match is
    replaced and the scan moves one character on. *)
Fixpoint sub_from (fuel : nat) (r : re) (repl : ctx -> pystr) (c : ctx)
  : pystr :=
  match fuel with
  | O => rest c
  | S fuel' =>
      let step :=
        match rest c with
        | [] => []
        | x :: t => x :: sub_from fuel' r repl (Ctx (Some x) t None)
        end in
      match rmatch ctx r Some (Ctx (prev c) (rest c) None) with
      | Some c' =>
          if (length (rest c') <? length (rest c))%nat
          then repl c' ++ sub_from fuel' r repl c'
          else repl c' ++ step
      | None => step
      end
  end.

(** A replacement without escapes. *)
Definition sub (r : re) (repl s : pystr) : pystr :=
  sub_from (S (length s)) r (fun _ => repl) (start s).

(** The replacement [r'\1']. *)
Definition sub_group (r : re) (s : pystr) : pystr :=
  sub_from (S (length s)) r (fun c' => default [] (cap c')) (start s).

(** [pattern.findall(s)] for a pattern without groups. *)
Fixpoint findall_from (fuel : nat) (r : re) (c : ctx) : list pystr :=
  match fuel with
  | O => []
  | S fuel' =>
      let step :=
        match rest c with
        | [] => []
        | x :: t => findall_from fuel' r (Ctx (Some x) t None)
        end in
      match rmatch ctx r Some (Ctx (prev c) (rest c) None) with
      | Some c' =>
          let found := take (length (rest c) - length (rest c')) (rest c) in
          if (length (rest c') <? length (rest c))%nat
          then found :: findall_from fuel' r c'
          else found :: step
      | None => step
      end
  end.

Definition findall (r : re) (s : pystr) : list pystr :=
  findall_from (S (length s)) r (start s).

End Matcher.

(** *** Pattern syntax *)

Definition chr (c : N) : re := Set_ false [Ch c].
Definition cls (items : list citem) : re := Set_ false items.
Definition ncls (items : list citem) : re := Set_ true items.
Definition seqs (l : list re) : re := fold_right Seq Eps l.
Definition lit (s : string) : re :=
  seqs (List.map (fun a => chr (N_of_ascii a)) (list_ascii_of_string s)).

Fixpoint alts (l : list re) : re :=
  match l with
  | [] => Set_ false []
  | [r] => r
  | r :: l' => Alt r (alts l')
  end.

Definition plus (greedy : bool) (r : re) : re := Seq r (Star greedy r).
Definition opt (r : re) : re := Alt r Eps.

Fixpoint times (r : re) (n : nat) : re :=
  match n with
  | O => Eps
  | S n' => Seq r (times r n')
  end.

Fixpoint upto (r : re) (n : nat) : re :=
  match n with
  | O => Eps
  | S n' => opt (Seq r (upto r n'))
  end.

(** [r{m,n}] and [r{m,}] *)
Definition rep (r : re) (m n : nat) : re := Seq (times r m) (upto r (n - m)).
Definition rep_min (r : re) (m : nat) : re := Seq (times r m) (Star true r).

(** Under [re.IGNORECASE] a letter of a str pattern matches both its
    cases and, for i, s and k, the dotted and dotless i, the long s and
    the Kelvin sign. *)
Definition ci_extra (lower : N) : list citem :=
  if lower =? 105 then [Ch 304; Ch 305]
  else if lower =? 115 then [Ch 383]
  else if lower =? 107 then [Ch 8490]
  else [].

Definition chr_i (c : N) : re :=
  if ascii_upper c then cls ([Ch c; Ch (c + 32)] ++ ci_extra (c + 32))
  else if ascii_lower c then cls ([Ch c; Ch (c - 32)] ++ ci_extra c)
  else chr c.

Definition lit_i (s : string) : re :=
  seqs (List.map (fun a => chr_i (N_of_ascii a)) (list_ascii_of_string s)).

(** [[A-Za-z]] under [re.IGNORECASE] *)
Definition letters_i : list citem :=
  [Rg 65 90; Rg 97 122; Ch 304; Ch 305; Ch 383; Ch 8490].

End Re.

(** ** pii_check.py *)

Module PiiCheck.
Import Re.

Definition digit : re := cls [Dg].
Definition sp_dash : re := cls [Ch (c_ " "); Ch (c_ "-")].
Definition date_sep : re := cls [Ch (c_ "/"); Ch (c_ "-"); Ch (c_ ".")].
Definition alnum_ascii : list citem := [Rg 97 122; Rg 65 90; Rg 48 57].
Definition upper : re := cls [Rg 65 90].

Definition email_re : re :=
  seqs [plus true (cls (alnum_ascii ++ [Ch (c_ "_"); Ch (c_ "."); Ch (c_ "+"); Ch (c_ "-")]));
        chr (c_ "@");
        plus true (cls (alnum_ascii ++ [Ch (c_ "-")]));
        chr (c_ ".");
        plus true (cls (alnum_ascii ++ [Ch (c_ "-"); Ch (c_ ".")]))].

Definition phone_re : re :=
  seqs [WordB;
        opt (seqs [Alt (chr (c_ "+")) (lit "00"); cls [Rg 49 57];
                   rep digit 0 2; sp_dash]);
        opt (seqs [chr (c_ "("); times digit 3; chr (c_ ")"); sp_dash]);
        times digit 3; opt sp_dash; times digit 4;
        opt (seqs [opt sp_dash; plus true digit]);
        WordB].

Definition ssn_usa_re : re :=
  seqs [WordB; times digit 3; chr (c_ "-"); times digit 2; chr (c_ "-");
        times digit 4; WordB].

Definition credit_card_re : re :=
  seqs [WordB; rep (Seq digit (Star false sp_dash)) 13 16; WordB].

Definition aadhaar_india_re : re :=
  let sep := opt (cls [Sp; Ch (c_ "-")]) in
  seqs [WordB; times digit 4; sep; times digit 4; sep; times digit 4; WordB].

Definition pan_india_re : re :=
  seqs [WordB; times upper 5; times (cls [Rg 48 57]) 4; times upper 1; WordB].

Definition passport_re : re :=
  seqs [WordB;
        Look false (seqs [Star true (Any false); WordB;
                          Look false (lit "PASSPORT"); WordB]);
        rep upper 1 2; rep digit 6 9; WordB].

Definition ip_address_re : re :=
  seqs [WordB; times (Seq (rep digit 1 3) (chr (c_ "."))) 3; rep digit 1 3;
        WordB].

Definition iban_re : re :=
  seqs [WordB; times upper 2; times digit 2;
        rep (cls [Rg 65 90; Rg 48 57]) 11 30; WordB].

Definition dob_re : re :=
  seqs [WordB;
        Alt (seqs [rep digit 1 2; date_sep; rep digit 1 2; date_sep;
                   rep digit 2 4])
            (seqs [times digit 4; date_sep; rep digit 1 2; date_sep;
                   rep digit 1 2]);
        WordB].

Definition address_re : re :=
  seqs [WordB; rep digit 1 5; plus true (cls [Sp]);
        plus true (Seq (plus true (cls (letters_i ++ [Rg 48 57; Ch (c_ "#")])))
                       (opt (cls [Sp])));
        alts (List.map lit_i
                ["Street"; "St"; "Road"; "Rd"; "Avenue"; "Ave"; "Boulevard";
                 "Blvd"; "Lane"; "Ln"; "Drive"; "Dr"; "Court"; "Ct"]%string);
        WordB].

Definition cherokee_nation_id_re : re := seqs [WordB; times digit 6; WordB].

Definition PII_PATTERNS : list (string * re) :=
  [("email", email_re); ("phone", phone_re); ("ssn_usa", ssn_usa_re);
   ("credit_card", credit_card_re); ("aadhaar_india", aadhaar_india_re);
   ("pan_india", pan_india_re); ("passport", passport_re);
   ("ip_address", ip_address_re); ("iban", iban_re); ("dob", dob_re);
   ("address", address_re);
   ("cherokee_nation_id", cherokee_nation_id_re)]%string.

Section Detect.
Context `{U : UnicodeData}.

Definition mask_label (label : string) : pystr :=
  of_string "[MASKED_" ++ upper_ascii (of_string label) ++ of_string "]".

Definition detect_and_mask_pii (text : pystr) : bool * pystr :=
  match text with
  | [] => (false, [])
  | _ =>
      let pii_detected := existsb (fun p => search p.2 text) PII_PATTERNS in
      if negb pii_detected then (false, text)
      else
        (true,
         fold_left (fun masked_text p => sub p.2 (mask_label p.1) masked_text)
           PII_PATTERNS text)
  end.

End Detect.
End PiiCheck.


(** ** hashlib.sha256 and urllib.parse.quote *)

Module Sha256.

Definition byte := N.

(** [str.encode('utf-8')] *)
Definition utf8_char (c : N) : list byte :=
  if c <? 128 then [c]
  else if c <? 2048 then
    [N.lor 192 (N.shiftr c 6); N.lor 128 (N.land c 63)]
  else if c <? 65536 then
    [N.lor 224 (N.shiftr c 12); N.lor 128 (N.land (N.shiftr c 6) 63);
     N.lor 128 (N.land c 63)]
  else
    [N.lor 240 (N.shiftr c 18); N.lor 128 (N.land (N.shiftr c 12) 63);
     N.lor 128 (N.land (N.shiftr c 6) 63); N.lor 128 (N.land c 63)].

Definition utf8 (s : pystr) : list byte := concat (List.map utf8_char s).

Definition mask32 : N := 0xffffffff.
Definition w32 (x : N) : N := N.land x mask32.
Definition add32 (a b : N) : N := w32 (a + b).
Definition rotr (n x : N) : N :=
  N.lor (N.shiftr x n) (w32 (N.shiftl x (32 - n))).
Definition ch (x y z : N) : N :=
  N.lxor (N.land x y) (N.land (N.lxor x mask32) z).
Definition maj (x y z : N) : N :=
  N.lxor (N.land x y) (N.lxor (N.land x z) (N.land y z)).
Definition bsig0 (x : N) : N := N.lxor (rotr 2 x) (N.lxor (rotr 13 x) (rotr 22 x)).
Definition bsig1 (x : N) : N := N.lxor (rotr 6 x) (N.lxor (rotr 11 x) (rotr 25 x)).
Definition ssig0 (x : N) : N := N.lxor (rotr 7 x) (N.lxor (rotr 18 x) (N.shiftr x 3)).
Definition ssig1 (x : N) : N := N.lxor (rotr 17 x) (N.lxor (rotr 19 x) (N.shiftr x 10)).

(** The constants as FIPS 180-4 defines them: the first 32 bits of the
    fractional parts of the cube roots (for [K]) and of the square roots
    (for [H0]) of the first primes. *)
Definition is_prime (n : nat) : bool :=
  forallb (fun d => negb (n mod d =? 0)%nat) (seq 2 (n - 2)).

Definition primes : list N :=
  List.map N.of_nat (List.filter is_prime (seq 2 310)).

Fixpoint cube_root_bits (k : nat) (n r : N) : N :=
  match k with
  | O => r
  | S k' =>
      let r' := N.lor r (N.shiftl 1 (N.of_nat k')) in
      cube_root_bits k' n (if r' * r' * r' <=? n then r' else r)
  end.

Definition cube_root (n : N) : N := cube_root_bits 40 n 0.

Definition K : list N :=
  List.map (fun p => w32 (cube_root (N.shiftl p 96))) primes.

Definition H0 : list N :=
  List.map (fun p => w32 (N.sqrt (N.shiftl p 64))) (take 8 primes).

(** Big-endian bytes of [x], [n] of them. *)
Fixpoint be_bytes (n : nat) (x : N) : list byte :=
  match n with
  | O => []
  | S n' => be_bytes n' (N.shiftr x 8) ++ [N.land x 255]
  end.

Definition pad (msg : list byte) : list byte :=
  let l := N.of_nat (length msg) in
  let zeros := N.to_nat ((119 - l mod 64) mod 64) in
  msg ++ [128] ++ repeat 0 zeros ++ be_bytes 8 (8 * l).

Fixpoint words (fuel : nat) (bs : list byte) : list N :=
  match fuel, bs with
  | S fuel', a :: b :: c :: d :: bs' =>
      (N.shiftl a 24 + N.shiftl b 16 + N.shiftl c 8 + d) :: words fuel' bs'
  | _, _ => []
  end.

(** The message schedule, most recent word first. *)
Fixpoint extend (n : nat) (rev_w : list N) : list N :=
  match n with
  | O => rev_w
  | S n' =>
      let w := add32 (add32 (ssig1 (nth 1 rev_w 0)) (nth 6 rev_w 0))
                     (add32 (ssig0 (nth 14 rev_w 0)) (nth 15 rev_w 0)) in
      extend n' (w :: rev_w)
  end.

Definition round (st : list N) (kw : N * N) : list N :=
  match st with
  | [a; b; c; d; e; f; g; h] =>
      let t1 := add32 (add32 (add32 h (bsig1 e)) (add32 (ch e f g) kw.1)) kw.2 in
      let t2 := add32 (bsig0 a) (maj a b c) in
      [add32 t1 t2; a; b; c; add32 d t1; e; f; g]
  | _ => st
  end.

Definition compress (h : list N) (block : list N) : list N :=
  let w := rev (extend 48 (rev block)) in
  let st := fold_left round (combine K w) h in
  List.map (fun p => add32 p.1 p.2) (combine h st).

Fixpoint blocks (fuel : nat) (ws : list N) (h : list N) : list N :=
  match fuel, ws with
  | S fuel', _ :: _ => blocks fuel' (drop 16 ws) (compress h (take 16 ws))
  | _, _ => h
  end.

Definition digest_words (msg : list byte) : list N :=
  let ws := words (length (pad msg)) (pad msg) in
  blocks (length ws) ws H0.

Definition hex_lower : list N := of_string "0123456789abcdef".
Definition hex_upper : list N := of_string "0123456789ABCDEF".

Definition hex_digit (alphabet : list N) (x : N) : N :=
  nth (N.to_nat (N.land x 15)) alphabet 48.

Fixpoint hex_of (alphabet : list N) (n : nat) (x : N) : pystr :=
  match n with
  | O => []
  | S n' => hex_of alphabet n' (N.shiftr x 4) ++ [hex_digit alphabet x]
  end.

(** [hashlib.sha256(data).hexdigest()] *)
Definition hexdigest (msg : list byte) : pystr :=
  concat (List.map (hex_of hex_lower 8) (digest_words msg)).

(** [urllib.parse.quote(s, safe='')] *)
Definition unreserved (b : byte) : bool :=
  ascii_alnum b || (b =? 95) || (b =? 46) || (b =? 45) || (b =? 126).

Definition quote_byte (b : byte) : pystr :=
  if unreserved b then [b] else 37 :: hex_of hex_upper 2 b.

Definition url_encode (s : pystr) : pystr :=
  concat (List.map quote_byte (utf8 s)).

End Sha256.

(** ** JSON values and [json.loads] *)

Module Json.

(** Numbers are kept as integers; a dict holds its items in insertion
    order, its keys distinct. *)
#[local] Unset Elimination Schemes.
Inductive json :=
| JNull
| JBool (b : bool)
| JNum (z : Z)
| JStr (s : pystr)
| JList (l : list json)
| JObj (kv : list (pystr * json)).
#[local] Set Elimination Schemes.

(** Python's truth value of a decoded JSON value. *)
Definition truthy (v : json) : bool :=
  match v with
  | JNull => false
  | JBool b => b
  | JNum z => negb (z =? 0)%Z
  | JStr s => negb (bool_decide (s = []))
  | JList l => negb (bool_decide (length l = 0%nat))
  | JObj kv => negb (bool_decide (length kv = 0%nat))
  end.

Fixpoint assoc (k : pystr) (kv : list (pystr * json)) : option json :=
  match kv with
  | [] => None
  | (k', v) :: kv' => if Py.eqb k k' then Some v else assoc k kv'
  end.

Definition jstr (s : string) : json := JStr (of_string s).
Definition jstrs (l : list pystr) : json := JList (List.map JStr l).

(** [json.loads]: [None] stands for [json.JSONDecodeError]. *)
Class JsonLib := { json_loads : pystr -> option json }.

End Json.
Export Json.

(** ** Runs that emit events and may raise *)

Module Run.

Inductive exn := Exn (cls : string).

Definition TypeError : exn := Exn "TypeError".
Definition AttributeError : exn := Exn "AttributeError".
Definition KeyError : exn := Exn "KeyError".

(** [except cls:] takes [e] *)
Definition is_instance (e : exn) (cls : string) : bool :=
  match e with Exn c => String.eqb c cls end.

(** What a run has emitted so far, and how it ended. *)
Definition run (E A : Type) : Type := list E * (exn + A).

Definition ret {E A} (a : A) : run E A := ([], inr a).
Definition raise {E A} (e : exn) : run E A := ([], inl e).
Definition emit {E} (x : E) : run E unit := ([x], inr tt).

Definition bind {E A B} (m : run E A) (f : A -> run E B) : run E B :=
  match m.2 with
  | inl e => (m.1, inl e)
  | inr a => let r := f a in (m.1 ++ r.1, r.2)
  end.

(** [try: body  except Exception as e: handler e] *)
Definition try_except {E A} (body : run E A) (handler : exn -> run E A)
  : run E A :=
  match body.2 with
  | inl e => let r := handler e in (body.1 ++ r.1, r.2)
  | inr a => body
  end.

(** [try: body  finally: fin] *)
Definition try_finally {E A} (body : run E A) (fin : run E unit) : run E A :=
  match fin.2 with
  | inl e => (body.1 ++ fin.1, inl e)
  | inr _ => (body.1 ++ fin.1, body.2)
  end.

Definition lift {E A} (r : exn + A) : run E A := ([], r).

Definition emitted {E A} (m : run E A) : list E := m.1.
Definition returns {E A} (m : run E A) : Prop := exists a, m.2 = inr a.

Declare Scope run_scope.
Delimit Scope run_scope with run.
Notation "x <- m ;; k" := (bind m (fun x => k))
  (at level 100, m at next level, right associativity) : run_scope.
Notation "m ;;; k" := (bind m (fun _ => k))
  (at level 100, right associativity) : run_scope.

End Run.
Export Run.

(** ** utils.py *)

Module Utils.
Import Re.

Fixpoint ltb_str (a b : pystr) : bool :=
  match a, b with
  | [], [] => false
  | [], _ :: _ => true
  | _ :: _, [] => false
  | x :: a', y :: b' => (x <? y) || ((x =? y) && ltb_str a' b')
  end.

Fixpoint insert_sorted (x : pystr) (l : list pystr) : list pystr :=
  match l with
  | [] => [x]
  | y :: l' =>
      if ltb_str y x then y :: insert_sorted x l'
      else if Py.eqb x y then l
      else x :: l
  end.

(** [sorted(list(set(l)))] *)
Definition sorted_set (l : list pystr) : list pystr :=
  fold_right insert_sorted [] l.

Fixpoint insert_stable (x : pystr) (l : list pystr) : list pystr :=
  match l with
  | [] => [x]
  | y :: l' => if ltb_str x y then x :: l else y :: insert_stable x l'
  end.

(** [sorted(l)] *)
Definition sorted (l : list pystr) : list pystr :=
  fold_left (fun acc x => insert_stable x acc) l [].

(** [s.rstrip(chars)] *)
Definition rstrip_chars (chars : list N) (s : pystr) : pystr :=
  let fix go (s : pystr) :=
    match s with
    | c :: t => if existsb (N.eqb c) chars then go t else s
    | [] => []
    end in
  rev (go (rev s)).

Definition CLEANING_REGEX_SIMPLE : re :=
  ncls [Rg 97 122; Rg 65 90; Rg 48 57; Sp; Ch (c_ "."); Ch (c_ "?");
        Ch (c_ "-")].

Definition markdown_link_pattern : re :=
  seqs [chr (c_ "["); Star true (ncls [Ch (c_ "]")]); chr (c_ "]");
        chr (c_ "("); Grp (plus true (ncls [Ch (c_ ")")])); chr (c_ ")")].

Definition host_label_i : list citem :=
  letters_i ++ [Rg 48 57; Ch (c_ "-")].

Definition url_tail : re :=
  seqs [chr (c_ "."); rep (cls letters_i) 2 5;
        opt (Seq (chr (c_ ".")) (lit_i "txt"));
        Look true (alts [Eol true; cls [Sp];
                         cls [Ch 34; Ch 39; Ch (c_ "<"); Ch (c_ ">")]])].

(** The [url_pattern] of [find_contacts_with_regex], compiled with
    [re.IGNORECASE | re.MULTILINE]. *)
Definition url_pattern : re :=
  alts
    [seqs [Alt (seqs [lit_i "http"; opt (chr_i (c_ "s")); lit "://"])
               (Seq (lit_i "www") (chr (c_ ".")));
           ncls [Sp; Ch (c_ "/"); Ch (c_ "$"); Ch (c_ "."); Ch (c_ "?");
                 Ch (c_ "#")];
           Any false; Star false (ncls [Sp]); url_tail];
     seqs [WordB;
           plus true (Seq (plus true (cls host_label_i)) (chr (c_ ".")));
           rep_min (cls letters_i) 2; chr (c_ "/");
           Star false (ncls [Sp]); url_tail];
     seqs [WordB;
           rep_min (Seq (plus true (cls host_label_i)) (chr (c_ "."))) 2;
           rep_min (cls letters_i) 2;
           opt (Seq (chr (c_ "/")) (Star true (ncls [Sp])));
           WordB]].

Definition email_pattern : re :=
  seqs [WordB;
        plus true (cls [Rg 65 90; Rg 97 122; Rg 48 57; Ch (c_ ".");
                        Ch (c_ "_"); Ch (c_ "%"); Ch (c_ "+"); Ch (c_ "-")]);
        chr (c_ "@");
        plus true (cls [Rg 65 90; Rg 97 122; Rg 48 57; Ch (c_ ".");
                        Ch (c_ "-")]);
        chr (c_ ".");
        rep_min (cls [Rg 65 90; Ch (c_ "|"); Rg 97 122]) 2;
        WordB].

Definition phone_pattern : re :=
  let d29 := cls [Rg 50 57] in
  let d09 := cls [Rg 48 57] in
  let sep := opt (cls [Ch (c_ "-"); Ch (c_ "."); Sp]) in
  seqs [opt (chr (c_ "(")); WordB; d29; times d09 2; opt (chr (c_ ")"));
        sep; d29; times d09 2; sep; times d09 4; WordB].

Definition txt_end : re :=
  Look true (alts [Eol false; chr (c_ "?"); chr (c_ "#"); chr (c_ "&")]).

Definition ext_txt_pattern : re :=
  seqs [Grp (Seq (chr (c_ "."))
                 (rep (cls (letters_i ++ [Rg 48 57])) 1 6));
        chr (c_ "."); lit_i "txt"; txt_end].

Definition txt_pattern : re := seqs [chr (c_ "."); lit_i "txt"; txt_end].

Definition fenced_json_pattern : re :=
  seqs [lit "```json"; Star true (cls [Sp]); chr 10;
        Grp (Star false (Any true)); chr 10; Star true (cls [Sp]);
        lit "```"].

Record contacts := Contacts {
  urls : list pystr;
  emails : list pystr;
  phones : list pystr
}.

Section WithTables.
Context `{U : UnicodeData} `{J : JsonLib}.

Definition clean_text (message : pystr) : pystr :=
  sub CLEANING_REGEX_SIMPLE [] message.

(** [None] is returned where the text does not decode. *)
Definition parse_json_from_markdown (markdown_string : pystr) : json :=
  let json_string :=
    match search_group fenced_json_pattern markdown_string with
    | Some g => strip g
    | None => strip markdown_string
    end in
  match json_loads json_string with
  | Some v => v
  | None => JNull
  end.

Definition process_url (url : pystr) : pystr :=
  let url := rstrip_chars [c_ "."; c_ "/"] url in
  let url := sub_group ext_txt_pattern url in
  let cleaned_url := sub txt_pattern [] url in
  if negb (startswith (uc_lower url) (of_string "http://")
           || startswith (uc_lower url) (of_string "https://"))
  then of_string "https://" ++ cleaned_url
  else cleaned_url.

Definition find_contacts_with_regex (text : pystr)
  (source_urls : option (list pystr)) : contacts :=
  let cleaned_text := sub_group markdown_link_pattern text in
  let initial_urls := findall url_pattern cleaned_text in
  let found_emails := findall email_pattern text in
  let found_phones := findall phone_pattern text in
  let processed_urls := List.map process_url initial_urls in
  {| urls :=
       match source_urls with
       | Some (u :: us) => take 3 (u :: us)
       | _ => take 4 (sorted_set processed_urls)
       end;
     emails := take 4 (sorted_set found_emails);
     phones := take 4 (sorted_set found_phones) |}.

End WithTables.
End Utils.

(** ** services.py *)

Module Services.
Import Re Utils.

(** An item [generate_primary_response] yields: [("text", t)] or
    [("sources", urls)]. *)
Inductive chunk :=
| Text (t : pystr)
| Sources (source_urls : list pystr).

Inductive worker := ContactWorker | FollowUpWorker.

#[global] Instance worker_eq_dec : EqDecision worker.
Proof. solve_decision. Defined.

(** The services outside the process, as one request meets them.
    - [summary_call history]: the History Summarizer past its emptiness
      test, the transcript of [history] and the model call: it raises,
      or answers with [response.text] ([None] where the response carries
      no text);
    - [primary_response message history]: the items the Completion
      Service generator yields, and the exception it ends with, if any;
    - [titles_call contacts context]: the batched title call after its
      retries; [follow_up_call text]: the follow-up call;
    - [completes i]: the workers that finish before the [i]-th
      [result_queue.get(timeout=20)] gives up, in the order they post. *)
Record world := World {
  summary_call : json -> exn + option pystr;
  primary_response : pystr -> json -> list chunk * option exn;
  titles_call : list pystr -> pystr -> exn + option pystr;
  follow_up_call : pystr -> exn + option pystr;
  completes : nat -> list worker
}.

(** One SSE block: [event: <name>] (absent for a bare [data:] line) and
    the JSON after [data:]. *)
Record frame := Frame { event : option pystr; data : json }.

(** What a request does that can be observed: the blocks it yields and
    the model calls it makes. *)
Inductive action :=
| Yield (f : frame)
| SummarizerCall (history : json)
| CompletionCall (message : pystr) (history : json).

(** [result_queue.put((event_type, data))] *)
Definition post : Type := pystr * json.

Definition contact_info : pystr := of_string "contact_info".
Definition follow_up : pystr := of_string "follow_up".

Definition empty_contacts : json :=
  JObj [(of_string "urls", JList []); (of_string "emails", JList []);
        (of_string "phones", JList [])].

Definition no_questions : json :=
  JObj [(of_string "follow_up_questions", JList [])].

Section WithWorld.
Context `{U : UnicodeData} `{J : JsonLib} (w : world).

(** [SummarizerCall history] marks that the summarizer has gone to work
    on a non-empty history; [summary_call w history] stands for all it
    then does: the transcript it formats from the turns (which raises
    for a turn that is no dict or whose [parts] is empty) and the model
    call.  Where either raises the oracle is [inl]. *)
Definition _generate_history_summary_sync (history : json)
  : run action pystr :=
  if negb (truthy history) then ret []
  else
    (emit (SummarizerCall history) ;;;
     response_text <- lift (summary_call w history) ;;
     match response_text with
     | Some text => ret (strip text)
     | None => raise AttributeError
     end)%run.

(** Never raises: the call and the decoding sit in a [try] whose
    handler returns the empty mapping. *)
Definition _generate_titles_for_contacts_batch (found : contacts)
  (context_text : pystr) : list (pystr * json) :=
  let all_contacts_list := sorted_set (urls found ++ emails found ++ phones found) in
  match all_contacts_list with
  | [] => []
  | _ =>
      match titles_call w all_contacts_list context_text with
      | inr (Some text) =>
          match parse_json_from_markdown text with
          | JObj title_map => title_map
          | _ => []
          end
      | inr None => []
      | inl _ => []
      end
  end.

Definition title_get (title_map : list (pystr * json)) (key : pystr)
  (default_title : pystr) : json :=
  default (JStr default_title) (assoc key title_map).

Definition default_email_title (email : pystr) : pystr :=
  let local_part := hd [] (split (c_ "@") email) in
  of_string "Email " ++
  uc_title (List.map (fun c => if c =? c_ "." then c_ " " else c) local_part).

Definition extract_and_generate_contact_titles (text : pystr)
  (source_urls : option (list pystr)) : run post unit :=
  try_except
    (let found_contacts := find_contacts_with_regex text source_urls in
     if negb (existsb (fun l => negb (bool_decide (l = [])))
                [urls found_contacts; emails found_contacts;
                 phones found_contacts])
     then emit (contact_info, empty_contacts)
     else
       let title_map := _generate_titles_for_contacts_batch found_contacts text in
       let structured_output :=
         JObj
           [(of_string "urls",
             JList (List.map
                      (fun url =>
                         JObj [(of_string "url", JStr url);
                               (of_string "title",
                                title_get title_map url (of_string "Visit Link"))])
                      (sorted (urls found_contacts))));
            (of_string "emails",
             JList (List.map
                      (fun email =>
                         JObj [(of_string "email", JStr email);
                               (of_string "title",
                                title_get title_map email (default_email_title email))])
                      (sorted (emails found_contacts))));
            (of_string "phones",
             JList (List.map
                      (fun phone =>
                         JObj [(of_string "phone", JStr phone);
                               (of_string "title",
                                title_get title_map phone (of_string "Call " ++ phone))])
                      (sorted (phones found_contacts))))] in
       emit (contact_info, structured_output))
    (fun _ => emit (contact_info, empty_contacts)).

Definition generate_follow_ups_async (text : pystr) : run post unit :=
  try_except
    (response_text <- lift (follow_up_call w text) ;;
     markdown_string <-
       match response_text with
       | Some t => ret t
       | None => raise TypeError
       end ;;
     questions <-
       match parse_json_from_markdown markdown_string with
       | JObj parsed_response =>
           ret (default (JList []) (assoc (of_string "questions") parsed_response))
       | _ => raise AttributeError
       end ;;
     let questions :=
       match questions with
       | JList _ => questions
       | _ => JList []
       end in
     emit (follow_up, JObj [(of_string "follow_up_questions", questions)]))%run
    (fun e =>
       if is_instance e "JSONDecodeError"
       then emit (follow_up, no_questions)
       else emit (follow_up, no_questions)).

End WithWorld.
End Services.

(** ** main.py *)

Module Main.
Import Re Utils Services.

(** The allow-list as both main.py and subscriber.py read it from the
    configuration value [URL_PREFIXES_EMBEDDING]:
    [[p.strip() for p in value.split(",") if p.strip()]]. *)
Definition parse_prefixes (allowed_prefixes_str : pystr) : list pystr :=
  List.filter (fun p => negb (bool_decide (p = [])))
    (List.map strip (split (c_ ",") allowed_prefixes_str)).

(** [url.startswith(tuple(prefixes))] *)
Definition startswith_any (url : pystr) (prefixes : list pystr) : bool :=
  existsb (startswith url) prefixes.

(** *** POST /update-embedding *)

Definition DELETE_TYPES : list pystr :=
  List.map of_string
    ["content-unpublished"; "content-deleted"; "media-deleted";
     "content-moving-to-recycle-bin"; "content-moved-to-recycle-bin";
     "media-moving-to-recycle-bin"; "media-moved-to-recycle-bin"]%string.

Definition UPSERT_TYPES : list pystr :=
  List.map of_string ["content"; "media"]%string.

Definition in_strs (v : json) (l : list pystr) : bool :=
  match v with
  | JStr s => existsb (Py.eqb s) l
  | _ => false
  end.

(** The [action] the handler derives from [type]; [None] where it
    answers 400. *)
Definition action_of_type (data_type : json) : option pystr :=
  if in_strs data_type DELETE_TYPES then Some (of_string "delete")
  else if in_strs data_type UPSERT_TYPES then Some (of_string "upsert")
  else None.

(** [obj[key]] inside a [try] that catches [KeyError] and [TypeError]. *)
Definition subscript (obj : json) (key : pystr) : option json :=
  match obj with
  | JObj kv => assoc key kv
  | _ => None
  end.

Definition final_url_of (query_data : json) (data_type : pystr)
  : option json :=
  if contains data_type (of_string "content") then
    match subscript query_data (of_string "urls") with
    | Some urls => subscript urls (of_string "en-us")
    | None => None
    end
  else if contains data_type (of_string "media") then
    subscript query_data (of_string "mediaUrl")
  else Some (JStr []).

(** The [return] statements of the view, by the message of their JSON
    body, and the status each sends. *)
Inductive reply :=
| MissingPayload
| MissingType
| UnsupportedType
| InvalidStructure
| NotConfigured
| Unauthorized
| Accepted
| PublishFailed.

Definition status (r : reply) : Z :=
  match r with
  | MissingPayload | MissingType | UnsupportedType | InvalidStructure => 400
  | NotConfigured | Unauthorized => 403
  | Accepted => 202
  | PublishFailed => 500
  end.

Section Webhook.
(** [data["URL_PREFIXES_EMBEDDING"]], and the two steps of publishing:
    whether [publisher.publish] takes the message and returns a future
    ([false]: the client, the topic path or [publish] raises, nothing is
    handed over), and whether [future.result()] then returns ([false]:
    it raises, the message already handed to the publisher). *)
Variable URL_PREFIXES_EMBEDDING : pystr.
Variable publish_ok : json -> bool.
Variable result_ok : json -> bool.

(** What the view returns; the task it hands to [publisher.publish] is
    emitted; an exception that leaves it is the framework's 500. *)
Definition update_embedding (query_data : json) : run json reply :=
  if negb (truthy query_data) then ret MissingPayload
  else
    match query_data with
    | JObj kv =>
        let data_type := default JNull (assoc (of_string "type") kv) in
        if negb (truthy data_type) then ret MissingType
        else
          match action_of_type data_type, data_type with
          | Some action, JStr type_name =>
              match final_url_of query_data type_name with
              | None => ret InvalidStructure
              | Some final_url =>
                  let allowed_url_prefixes := parse_prefixes URL_PREFIXES_EMBEDDING in
                  if bool_decide (allowed_url_prefixes = []) then ret NotConfigured
                  else
                    match final_url with
                    | JStr url =>
                        if negb (startswith_any url allowed_url_prefixes)
                        then ret Unauthorized
                        else
                          let message_payload :=
                            JObj ([(of_string "action", JStr action);
                                   (of_string "url", JStr url)] ++
                                  (if Py.eqb action (of_string "upsert")
                                   then [(of_string "type", data_type)]
                                   else [])) in
                          if publish_ok message_payload
                          then
                            (emit message_payload ;;;
                             if result_ok message_payload
                             then ret Accepted
                             else ret PublishFailed)%run
                          else ret PublishFailed
                    | _ => raise AttributeError
                    end
              end
          | _, _ => ret UnsupportedType
          end
    | _ => raise AttributeError
    end.

End Webhook.

(** *** POST /conversation *)

Definition INVALID_INPUT : pystr :=
  of_string "UNANSWERABLE_QUERY_DUE_TO_INVALID_INPUT".
Definition PROMPT_FILTER : pystr :=
  of_string "UNANSWERABLE_QUERY_DUE_TO_PROMPT_FILTER".

Definition html_refusal : pystr :=
  of_string "It looks like your message had some special symbols or formatting I couldn't interpret. Please try again using simple, plain text.".
Definition privacy_refusal : pystr :=
  of_string "To protect your privacy, we cannot process requests that appear to contain personal or sensitive information. Please rephrase your question without including any personal details and try again.".
Definition unavailable : pystr :=
  of_string "Cherokee Nation Chat is not available right now, please try again later.".

Definition alnum_pattern : re :=
  cls [Rg 97 122; Rg 65 90; Rg 48 57; Rg 0x13A0 0x13FF; Rg 0xAB70 0xABBF].

Definition html_tag_pattern : re :=
  seqs [chr (c_ "<"); plus true (ncls [Ch (c_ ">")]); chr (c_ ">")].

(** [data: {"answer_chunk": text}] and its variant with ["error": true] *)
Definition text_delta (text : pystr) : frame :=
  Frame None (JObj [(of_string "answer_chunk", JStr text)]).
Definition error_delta (text : pystr) : frame :=
  Frame None (JObj [(of_string "answer_chunk", JStr text);
                    (of_string "error", JBool true)]).
Definition sources_frame (source_urls : list pystr) : frame :=
  Frame (Some (of_string "sources"))
        (JObj [(of_string "source_urls", jstrs source_urls)]).
Definition done_frame : frame := Frame (Some (of_string "done")) (JObj []).

Definition summary_turn (summary : pystr) : json :=
  JList [JObj [(of_string "role", jstr "user");
               (of_string "parts",
                JList [JObj [(of_string "text",
                             JStr (of_string "PREVIOUS CONVERSATION SUMMARY: " ++ summary))]])]].

(** [len(history)] *)
Definition py_len (v : json) : exn + nat :=
  match v with
  | JList l => inr (length l)
  | JStr s => inr (length s)
  | JObj kv => inr (length kv)
  | _ => inl TypeError
  end.

(** What the view returns: one of its two 400 responses
    ([{"error": "Message is required."}] or
    [{"error": "Invalid request body."}]), the event stream, or nothing
    where an exception leaves it. *)
Inductive response :=
| MessageRequired
| InvalidRequestBody
| Unhandled (e : exn)
| EventStream (r : run action unit).

Section Conversation.
Context `{U : UnicodeData} `{J : JsonLib}.
Variable PROMPT_INJECTION_KEYWORDS : list pystr.
Variable w : world.

(** The three rewrites of [message], in the order the view applies them. *)
Definition after_length_check (message : pystr) : pystr :=
  if (len (strip message) <? 3)%Z || (len message >? 2048)%Z
  then INVALID_INPUT else message.

Definition after_content_check (message : pystr) : pystr :=
  if negb (search alnum_pattern message) then INVALID_INPUT else message.

Definition after_keyword_scan (message : pystr) : pystr :=
  let normalized_message := clean_text (uc_lower message) in
  if existsb (fun keyword => contains normalized_message keyword)
       PROMPT_INJECTION_KEYWORDS
     || Py.eqb message (of_string "null")
  then PROMPT_FILTER else message.

Definition screened (message : pystr) : pystr :=
  after_keyword_scan (after_content_check (after_length_check message)).

(** The [for chunk_type, data in primary_response_generator] loop. *)
Fixpoint relay (items : list chunk) (full_response_text : pystr)
  (source_urls : option (list pystr))
  : run action (pystr * option (list pystr)) :=
  match items with
  | [] => ret (full_response_text, source_urls)
  | Text t :: items' =>
      (emit (Yield (text_delta t)) ;;;
       relay items' (full_response_text ++ t) source_urls)%run
  | Sources urls :: items' =>
      (emit (Yield (sources_frame urls)) ;;;
       relay items' full_response_text (Some urls))%run
  end.

(** What the worker thread of this kind puts on the result queue. *)
Definition posts_of (full_response_text current_turn_history : pystr)
  (source_urls : option (list pystr)) (k : worker) : list post :=
  match k with
  | ContactWorker =>
      emitted (extract_and_generate_contact_titles w full_response_text source_urls)
  | FollowUpWorker =>
      emitted (generate_follow_ups_async w current_turn_history)
  end.

(** The [for _ in range(len(threads))] loop: [i] counts the gets made,
    [queue] holds what is posted and not yet taken, [finished] the
    workers whose posts are in. *)
Fixpoint collect (posts : worker -> list post) (n i : nat)
  (queue : list post) (finished : list worker) : run action unit :=
  match n with
  | O => ret tt
  | S n' =>
      let newly :=
        List.filter (fun k => negb (bool_decide (k ∈ finished)))
          (remove_dups (completes w i)) in
      match queue ++ flat_map posts newly with
      | [] => collect posts n' (S i) [] (finished ++ newly)
      | (event_type, data) :: queue' =>
          (emit (Yield (Frame (Some event_type) data)) ;;;
           collect posts n' (S i) queue' (finished ++ newly))%run
      end
  end.

(** The generator, read to its end by the server: what it yields and the
    model calls it makes, in order.  [message], [history], [pii_found]
    and [masked_message] are the variables of the enclosing view it
    closes over.  The two worker threads are started after the relay
    loop; what they post reaches the loop through [collect]. *)
Definition generate_response_stream (message : pystr) (history : json)
  (pii_found : bool) (masked_message : pystr) : run action unit :=
  try_finally
    (try_except
       (if search html_tag_pattern message then
          emit (Yield (error_delta html_refusal))
        else if pii_found then
          emit (Yield (error_delta privacy_refusal))
        else
          (n <- lift (py_len history) ;;
           processed_history <-
             (if negb (n =? 0)%nat then
                summary <- _generate_history_summary_sync w history ;;
                if negb (bool_decide (summary = []))
                then ret (summary_turn summary)
                else ret history
              else ret history) ;;
           emit (CompletionCall masked_message processed_history) ;;;
           let generated := primary_response w masked_message processed_history in
           out <- relay generated.1 [] None ;;
           match generated.2 with
           | Some e => raise e
           | None => ret tt
           end ;;;
           let full_response_text := out.1 in
           let source_urls := out.2 in
           let current_turn_history :=
             masked_message ++ of_string " " ++ full_response_text in
           collect (posts_of full_response_text current_turn_history source_urls)
             2 0 [] [])%run)
       (fun _ => emit (Yield (error_delta unavailable))))
    (emit (Yield done_frame)).

(** [payload]: what [request.get_json()] returns, [None] where it raises. *)
Definition conversation_handler_dev (payload : option json) : response :=
  match payload with
  | Some (JObj kv) =>
      let message := default JNull (assoc (of_string "message") kv) in
      let history := default (JList []) (assoc (of_string "history") kv) in
      if negb (truthy message) then MessageRequired
      else
        match message with
        | JStr message =>
            let message := screened message in
            let found := PiiCheck.detect_and_mask_pii message in
            EventStream (generate_response_stream message history found.1 found.2)
        | _ => Unhandled AttributeError
        end
  | _ => InvalidRequestBody
  end.

End Conversation.
End Main.

(** ** vector_store.py *)

Module VectorStore.
Import Sha256.

(** A file of the RAG corpus: its resource name and its display name. *)
Record rag_file := RagFile { name : N; display_name : pystr }.

Record blob := Blob { content : list byte; content_type : pystr }.

(** The corpus ([rag.list_files] order) and the bucket. *)
Record store := Store {
  files : list rag_file;
  bucket : gmap (list N) blob;
  next_name : N
}.

Definition empty_store : store := Store [] ∅ 0.

(** Which calls to the corpus and bucket services raise during one
    operation. *)
Record faults := Faults {
  list_files_fails : bool;
  delete_file_fails : bool;
  gcs_delete_fails : bool;
  upload_fails : bool;
  import_fails : bool
}.

Definition all_ok : faults := Faults false false false false false.

Definition ServiceError : exn := Exn "ServiceError".

(** [hashlib.sha256(document_url.encode('utf-8')).hexdigest()], for a
    URL that encodes.  For a URL that holds a lone surrogate [encode]
    raises [UnicodeEncodeError], in the three operations below before
    any store call; these are given here for the URLs that encode, and a
    statement that depends on how an operation ends says so. *)
Definition url_hash (document_url : pystr) : pystr :=
  hexdigest (utf8 document_url).

Definition _create_safe_gcs_blob_name (file_display_name document_url : pystr)
  : pystr :=
  let encoded_url := url_encode document_url in
  file_display_name ++ of_string "|" ++ encoded_url ++ of_string ".txt".

(** [str(file.display_name).split("|")[0] == file_display_name] *)
Definition hash_matches (file_display_name : pystr) (file : rag_file) : bool :=
  Py.eqb (hd [] (split (c_ "|") (display_name file))) file_display_name.

(** The loop that deletes the first file whose hash matches and breaks. *)
Fixpoint delete_first (file_display_name : pystr) (l : list rag_file)
  : list rag_file :=
  match l with
  | [] => []
  | file :: l' =>
      if hash_matches file_display_name file then l'
      else file :: delete_first file_display_name l'
  end.

Section Operations.
Variable fl : faults.

(** Never raises: the outer [except Exception] logs and returns, be it
    [rag.list_files] or [rag.delete_file] that failed.  Every listed
    file has a display name, so the inner [except AttributeError] has
    nothing to skip. *)
Definition _delete_existing_rag_file (file_display_name : pystr) (s : store)
  : store :=
  if list_files_fails fl then s
  else if existsb (hash_matches file_display_name) (files s)
          && delete_file_fails fl then s
  else Store (delete_first file_display_name (files s)) (bucket s) (next_name s).

(** Never raises either; a blob that is not there is left alone. *)
Definition _delete_from_gcs (blob_name : pystr) (s : store) : store :=
  if gcs_delete_fails fl then s
  else Store (files s) (delete blob_name (bucket s)) (next_name s).

(** Re-raises what the upload raises.  The URI it returns,
    [gs://<bucket>/<blob name>], is kept as the blob name. *)
Definition _upload_to_gcs (data : list byte) (destination_blob_name : pystr)
  (ctype : pystr) (s : store) : store * (exn + pystr) :=
  if upload_fails fl then (s, inl ServiceError)
  else
    (Store (files s) (<[destination_blob_name := Blob data ctype]> (bucket s))
       (next_name s),
     inr destination_blob_name).

(** [rag.import_files(corpus, [gcs_uri], ...)]: the corpus service
    indexes the blob as a new file displayed under the blob's name (the
    name [_delete_existing_rag_file] splits at [|], and the title
    [generate_primary_response] decodes the source URL from). *)
Definition import_files (blob_name : pystr) (s : store) : store * (exn + unit) :=
  if import_fails fl then (s, inl ServiceError)
  else
    (Store (files s ++ [RagFile (next_name s) blob_name]) (bucket s)
       (next_name s + 1),
     inr tt).

Definition upsert_pdf_with_llm_parser (pdf_content : list byte)
  (document_url : pystr) (s : store) : store * (exn + unit) :=
  match pdf_content with
  | [] => (s, inr tt)
  | _ =>
      let file_display_name := url_hash document_url in
      let s := _delete_existing_rag_file file_display_name s in
      let gcs_blob_name :=
        _create_safe_gcs_blob_name file_display_name document_url in
      match _upload_to_gcs pdf_content gcs_blob_name
              (of_string "application/pdf") s with
      | (s, inl e) => (s, inl e)
      | (s, inr gcs_uri) => import_files gcs_uri s
      end
  end.

Definition upsert_text_content (text document_url : pystr) (s : store)
  : store * (exn + unit) :=
  match text with
  | [] => (s, inr tt)
  | _ =>
      let file_display_name := url_hash document_url in
      let s := _delete_existing_rag_file file_display_name s in
      let gcs_blob_name :=
        _create_safe_gcs_blob_name file_display_name document_url in
      match _upload_to_gcs (utf8 text) gcs_blob_name
              (of_string "text/plain; charset=utf-8") s with
      | (s, inl e) => (s, inl e)
      | (s, inr gcs_uri) => import_files gcs_uri s
      end
  end.

Definition delete_document_by_url (document_url : pystr) (s : store)
  : store * (exn + unit) :=
  match document_url with
  | [] => (s, inr tt)
  | _ =>
      let file_display_name_hash := url_hash document_url in
      let gcs_blob_name :=
        _create_safe_gcs_blob_name file_display_name_hash document_url in
      let s := _delete_existing_rag_file file_display_name_hash s in
      let s := _delete_from_gcs gcs_blob_name s in
      (s, inr tt)
  end.

(** [scrape_website url]: the text extracted from the page, or [None]
    where fetching or parsing reports an error. *)
Definition upsert_scraped_url (scrape_website : pystr -> option pystr)
  (url : pystr) (s : store) : store * (exn + unit) :=
  match scrape_website url with
  | None => (s, inr tt)
  | Some text => upsert_text_content text url s
  end.

End Operations.

(** The live documents of a hash. *)
Definition documents_for (file_display_name : pystr) (s : store)
  : list rag_file :=
  List.filter (hash_matches file_display_name) (files s).

End VectorStore.

(** ** subscriber.py *)

Module Subscriber.
Import VectorStore Main.

Inductive verdict := Ack | Nack.

Section Callback.
(** The configuration value, the web as the task meets it
    ([fetch_media url]: [requests.get] and [raise_for_status], then
    [response.content]), and the faults of the store services. *)
Variable URL_PREFIXES_EMBEDDING : pystr.
Variable scrape_website : pystr -> option pystr.
Variable fetch_media : pystr -> exn + list Sha256.byte.
Variable fl : faults.

Definition ALLOWED_URL_PREFIXES : list pystr :=
  parse_prefixes URL_PREFIXES_EMBEDDING.

(** The work between the allow-list check and [message.ack()]. *)
Definition process (data : list (pystr * json)) (url : pystr) (s : store)
  : store * (exn + unit) :=
  let action := default (jstr "upsert") (assoc (of_string "action") data) in
  if in_strs action [of_string "delete"] then
    delete_document_by_url fl url s
  else if in_strs action [of_string "upsert"] then
    let data_type := default (jstr "content") (assoc (of_string "type") data) in
    if in_strs data_type [of_string "media"] then
      match fetch_media url with
      | inl e => (s, inl e)
      | inr response_content => upsert_pdf_with_llm_parser fl response_content url s
      end
    else upsert_scraped_url fl scrape_website url s
  else (s, inr tt).

(** [message_data]: what [json.loads(message.data.decode('utf-8'))]
    gives, [None] where it raises.  The run emits the [ack]/[nack]
    calls; it raises where the [except] handler itself fails on
    [data.get], [data] being unbound or no dict. *)
Definition message_processing_callback (message_data : option json)
  (s : store) : store * run verdict unit :=
  match message_data with
  | None => (s, raise (Exn "UnboundLocalError"))
  | Some (JObj data) =>
      let url := default JNull (assoc (of_string "url") data) in
      if negb (truthy url) then (s, emit Ack)
      else if bool_decide (ALLOWED_URL_PREFIXES = []) then (s, emit Nack)
      else
        match url with
        | JStr url =>
            if negb (startswith_any url ALLOWED_URL_PREFIXES) then (s, emit Ack)
            else
              match process data url s with
              | (s', inr _) => (s', emit Ack)
              | (s', inl _) => (s', emit Nack)
              end
        | _ => (s, emit Nack)
        end
  | Some _ => (s, raise AttributeError)
  end.

End Callback.
End Subscriber.

(** ** What the statements below observe *)

Module Observe.
Import Services Main VectorStore.

(** The SSE blocks among the actions of a request, in order. *)
Definition frames (l : list action) : list frame :=
  flat_map (fun a => match a with Yield f => [f] | _ => [] end) l.

(** The arguments of the Completion Service calls, in order. *)
Definition completion_calls (l : list action) : list (pystr * json) :=
  flat_map (fun a => match a with
                     | CompletionCall m h => [(m, h)]
                     | _ => []
                     end) l.

Definition summarizer_calls (l : list action) : list json :=
  flat_map (fun a => match a with SummarizerCall h => [h] | _ => [] end) l.

Definition is_done (f : frame) : bool :=
  bool_decide (event f = Some (of_string "done")).

(** An action that is no [done] block. *)
Definition quiet (a : action) : Prop :=
  match a with
  | Yield f => is_done f = false
  | _ => True
  end.

(** An action that is no Completion Service call, or one whose message
    is [m]. *)
Definition completion_gets (m : pystr) (a : action) : Prop :=
  match a with
  | CompletionCall m' _ => m' = m
  | _ => True
  end.

Definition is_yield (a : action) : Prop := exists f, a = Yield f.

(** A queue item tagged by one of the two workers. *)
Definition tagged (p : post) : Prop :=
  p.1 = contact_info \/ p.1 = follow_up.

(** A dict holding lists under [urls], [emails] and [phones]. *)
Definition contact_shape (d : json) : Prop :=
  exists us es ps,
    d = JObj [(of_string "urls", JList us); (of_string "emails", JList es);
              (of_string "phones", JList ps)].

Definition count_documents (file_display_name : pystr) (s : store) : nat :=
  length (documents_for file_display_name s).

(** The same URL upserted once per text of [texts], in order, the store
    services answering every call. *)
Definition upsert_each (texts : list pystr) (url : pystr) (s : store) : store :=
  fold_left (fun s text => (upsert_text_content all_ok text url s).1) texts s.

(** The stores the process can get to from the empty one while the
    store services answer every call. *)
Inductive reachable : store -> Prop :=
| reach_empty : reachable empty_store
| reach_text text url s :
    reachable s -> reachable (upsert_text_content all_ok text url s).1
| reach_pdf pdf url s :
    reachable s -> reachable (upsert_pdf_with_llm_parser all_ok pdf url s).1
| reach_delete url s :
    reachable s -> reachable (delete_document_by_url all_ok url s).1.

(** [rag.delete_file] raises; every other call answers. *)
Definition delete_file_down : faults := Faults false true false false false.

(** [name.endswith(suffix)] *)
Definition endswith (name suffix : pystr) : bool :=
  startswith (rev name) (rev suffix).

(** [blob.upload_from_string] raises; every other call answers. *)
Definition upload_down : faults := Faults false false false true false.

(** The corpus and the bucket both refuse every deletion. *)
Definition deletes_down : faults := Faults true true true false false.

(** A string without lone surrogate: [s.encode('utf-8')] returns, with
    the bytes [Sha256.utf8 s].  On any other string it raises
    [UnicodeEncodeError]. *)
Definition encodable (s : pystr) : Prop :=
  Forall (fun c => in_range 0xD800 0xDFFF c = false) s.

(** [consumes ok r]: by its shape alone, every match of [r] takes at
    least one character through a class that [ok] accepts. *)
Fixpoint consumes (ok : list Re.citem -> bool) (r : Re.re) : bool :=
  match r with
  | Re.Set_ false items => ok items
  | Re.Seq r1 r2 => consumes ok r1 || consumes ok r2
  | Re.Alt r1 r2 => consumes ok r1 && consumes ok r2
  | Re.Grp r1 => consumes ok r1
  | _ => false
  end.

(** A class item that matches nothing but decimal digits and [@]. *)
Definition digit_or_at_item (i : Re.citem) : bool :=
  match i with
  | Re.Dg => true
  | Re.Ch c => ascii_digit c || (c =? c_ "@")
  | Re.Rg lo hi => (48 <=? lo) && (hi <=? 57)
  | _ => false
  end.

(** A character some PII pattern can start from: a decimal digit, of
    ASCII or of another script, or [@]. *)
Definition digit_or_at `{U : UnicodeData} (c : N) : bool :=
  uc_decimal c || ascii_digit c || (c =? c_ "@").

(** The class [<] alone. *)
Definition only_lt (items : list Re.citem) : bool :=
  match items with
  | [Re.Ch c] => c =? c_ "<"
  | _ => false
  end.

(** What [clean_text] lets through: ASCII letters and digits, white
    space, and the three marks [.], [?] and [-]. *)
Definition kept_by_clean_text (c : N) : bool :=
  ascii_alnum c || isspace c || (c =? c_ ".") || (c =? c_ "?") || (c =? c_ "-").

(** The SSE block the relay loop yields for a chunk of the primary
    response. *)
Definition chunk_frame (c : chunk) : frame :=
  match c with
  | Text t => text_delta t
  | Sources urls => sources_frame urls
  end.

(** An ASCII letter or digit, or a letter of the Cherokee blocks. *)
Definition alnum_or_cherokee (c : N) : bool :=
  ascii_alnum c || in_range 0x13A0 0x13FF c || in_range 0xAB70 0xABBF c.

End Observe.

(** ** Sample surroundings for the worked examples *)

Module Samples.
Import Services Main VectorStore.

(** A decoder that knows the texts [{}] and [[]] only; no example
    decodes another text. *)
Definition two_texts : JsonLib := {|
  json_loads := fun s =>
    if Py.eqb s (of_string "{}") then Some (JObj [])
    else if Py.eqb s (of_string "[]") then Some (JList [])
    else None
|}.

Definition Unavailable : exn := Exn "ServiceUnavailable".

(** Every service raises and no worker finishes in time. *)
Definition offline : world :=
  World (fun _ => inl Unavailable) (fun _ _ => ([], Some Unavailable))
    (fun _ _ => inl Unavailable) (fun _ => inl Unavailable) (fun _ => []).

(** The services answer; both workers finish during the first wait. *)
Definition online : world :=
  World (fun _ => inr (Some (of_string " They asked about clinics. ")))
    (fun _ _ =>
       ([Text (of_string "Osiyo. "); Text (of_string "Call 918-453-5000.");
         Sources [of_string "https://www.cherokee.org/health"]], None))
    (fun _ _ => inr (Some (of_string "{}")))
    (fun _ => inr (Some (of_string "{}")))
    (fun i => match i with O => [ContactWorker; FollowUpWorker] | _ => [] end).

(** As [online], but the summarizer call raises. *)
Definition summarizer_down : world :=
  World (fun _ => inl Unavailable) (primary_response online)
    (titles_call online) (follow_up_call online) (completes online).

Definition one_turn : json :=
  JList [JObj [(of_string "role", jstr "user");
               (of_string "parts",
                JList [JObj [(of_string "text", jstr "Where is the clinic?")]])]].

Definition page_url : pystr := of_string "https://nation.example/page".

(** The web as the consumer meets it: no page has text, no media loads. *)
Definition no_page : pystr -> option pystr := fun _ => None.
Definition no_media : pystr -> exn + list N := fun _ => inl Unavailable.

(** A page with no extractable text, and a page with some. *)
Definition blank_page : pystr -> option pystr := fun _ => Some [].
Definition some_page : pystr -> option pystr :=
  fun _ => Some (of_string "Health services of the Cherokee Nation").

Definition publish_all : json -> bool := fun _ => true.

Definition upsert_task : json :=
  JObj [(of_string "action", jstr "upsert"); (of_string "url", JStr page_url);
        (of_string "type", jstr "content")].

End Samples.

(** * Properties *)

Import Re Utils Services Main VectorStore Subscriber Observe.

(** ** Runs *)

Section RunFacts.
Context {E A B : Type}.

Lemma emitted_bind (m : run E A) (f : A -> run E B) :
  emitted (bind m f) =
  emitted m ++ match m.2 with inl _ => [] | inr a => emitted (f a) end.
Proof.
  unfold bind, emitted. destruct m as [l [e | a]]; simpl.
  - by rewrite app_nil_r.
  - done.
Qed.

Lemma bind_ret_l (a : A) (f : A -> run E B) : bind (ret a) f = f a.
Proof. unfold bind, ret. simpl. by destruct (f a). Qed.

Lemma bind_emit (x : E) (f : unit -> run E B) :
  bind (emit x) f = (x :: (f tt).1, (f tt).2).
Proof. reflexivity. Qed.

Lemma bind_raise (e : exn) (f : A -> run E B) : bind (raise e) f = raise e.
Proof. reflexivity. Qed.

Lemma emitted_try_except (body : run E A) (handler : exn -> run E A) :
  emitted (try_except body handler) =
  emitted body ++ match body.2 with inl e => emitted (handler e) | inr _ => [] end.
Proof.
  unfold try_except, emitted. destruct body as [l [e | a]]; simpl.
  - done.
  - by rewrite app_nil_r.
Qed.

Lemma emitted_try_finally (body : run E A) (fin : run E unit) :
  emitted (try_finally body fin) = emitted body ++ emitted fin.
Proof. unfold try_finally, emitted. by destruct (fin.2). Qed.

End RunFacts.

(** ** The background workers (services.py) *)

Section Workers.
Context `{U : UnicodeData} `{J : JsonLib}.
Variable w : world.

Lemma contact_worker_posts (text : pystr) (source_urls : option (list pystr)) :
  exists d,
    extract_and_generate_contact_titles w text source_urls
    = ([(contact_info, d)], inr tt) /\ contact_shape d.
Proof.
  unfold extract_and_generate_contact_titles.
  match goal with |- context [if ?c then _ else _] => destruct c end.
  - eexists. split; [reflexivity |]. by exists [], [], [].
  - eexists. split; [reflexivity |]. unfold contact_shape. eauto.
Qed.

Lemma follow_up_worker_posts (text : pystr) :
  exists qs,
    generate_follow_ups_async w text
    = ([(follow_up, JObj [(of_string "follow_up_questions", JList qs)])], inr tt)
    /\ (qs = [] \/
        exists t kv,
          follow_up_call w text = inr (Some t)
          /\ parse_json_from_markdown t = JObj kv
          /\ assoc (of_string "questions") kv = Some (JList qs)).
Proof.
  unfold generate_follow_ups_async, lift.
  destruct (follow_up_call w text) as [e | [t |]] eqn:Hcall.
  - exists []. split; [| by left].
    unfold try_except; simpl. by destruct (is_instance e _).
  - unfold bind at 1 2; simpl.
    destruct (parse_json_from_markdown t) as [ |b|z|s|l|kv] eqn:Hparse;
      try (exists []; split; [reflexivity | by left]).
    simpl.
    destruct (assoc (of_string "questions") kv) as [[ |b|z|s|qs|kv']|] eqn:Hq; simpl;
      try (exists []; split; [reflexivity | by left]).
    exists qs. split; [reflexivity |]. right. by exists t, kv.
  - exists []. split; [reflexivity | by left].
Qed.

(** C10: each background worker posts exactly one result on every path
    and returns normally: the contact worker one ["contact_info"] item
    that is a dict of lists under urls, emails and phones; the follow-up
    worker one ["follow_up"] item that is a dict holding a list under
    follow_up_questions, the empty list unless the call answered with a
    text that decodes to a dict holding that list under questions. *)
Theorem workers_post_exactly_once (text turn : pystr)
  (source_urls : option (list pystr)) :
  (exists d,
     extract_and_generate_contact_titles w text source_urls
     = ([(contact_info, d)], inr tt) /\ contact_shape d)
  /\ (exists qs,
        generate_follow_ups_async w turn
        = ([(follow_up, JObj [(of_string "follow_up_questions", JList qs)])],
           inr tt)
        /\ (qs = [] \/
            exists t kv,
              follow_up_call w turn = inr (Some t)
              /\ parse_json_from_markdown t = JObj kv
              /\ assoc (of_string "questions") kv = Some (JList qs))).
Proof.
  split; [apply contact_worker_posts | apply follow_up_worker_posts].
Qed.

End Workers.

(** ** The event stream (main.py, [generate_response_stream]) *)

Section Stream.
Context `{U : UnicodeData} `{J : JsonLib}.
Variable w : world.

Lemma Forall_emitted_bind {E A B} (P : E -> Prop) (m : run E A)
  (f : A -> run E B) :
  Forall P (emitted m) ->
  (forall a, m.2 = inr a -> Forall P (emitted (f a))) ->
  Forall P (emitted (bind m f)).
Proof.
  intros Hm Hf. rewrite emitted_bind. apply Forall_app. split; [done |].
  destruct (m.2) as [e | a] eqn:Hr; [constructor | by apply Hf].
Qed.

Lemma relay_quiet (items : list chunk) (full : pystr)
  (src : option (list pystr)) :
  Forall quiet (emitted (relay items full src)).
Proof.
  revert full src. induction items as [| [t | urls] items IH]; intros full src.
  - constructor.
  - simpl. constructor; [done | apply IH].
  - simpl. constructor; [done | apply IH].
Qed.

Lemma relay_returns (items : list chunk) (full : pystr)
  (src : option (list pystr)) :
  exists out, (relay items full src).2 = inr out.
Proof.
  revert full src. induction items as [| [t | urls] items IH]; intros full src.
  - by eexists.
  - simpl. unfold bind; simpl. apply IH.
  - simpl. unfold bind; simpl. apply IH.
Qed.

Lemma posts_of_tagged (text turn : pystr) (source_urls : option (list pystr))
  (k : worker) :
  Forall tagged (posts_of w text turn source_urls k).
Proof.
  destruct k; simpl.
  - destruct (contact_worker_posts w text source_urls) as (d & -> & _).
    constructor; [by left | constructor].
  - destruct (follow_up_worker_posts w turn) as (qs & -> & _).
    constructor; [by right | constructor].
Qed.

Lemma tagged_quiet (p : post) : tagged p -> quiet (Yield (Frame (Some p.1) p.2)).
Proof. by intros [-> | ->]. Qed.

Lemma collect_quiet (posts : worker -> list post) (n i : nat)
  (queue : list post) (finished : list worker) :
  (forall k, Forall tagged (posts k)) ->
  Forall tagged queue ->
  Forall quiet (emitted (collect w posts n i queue finished)).
Proof.
  intros Hposts. revert i queue finished.
  induction n as [| n IH]; intros i queue finished Hq; [constructor |].
  simpl.
  match goal with |- context [queue ++ ?new] =>
    assert (Hall : Forall tagged (queue ++ new));
      [| destruct (queue ++ new) as [| [event_type d] queue'] ] end.
  - apply Forall_app. split; [done |].
    apply Forall_flat_map, Forall_forall. intros k _. apply Hposts.
  - apply IH. constructor.
  - apply Forall_cons in Hall as [Hp Hq'].
    apply Forall_emitted_bind.
    + constructor; [| constructor]. by apply (tagged_quiet (event_type, d)).
    + intros _ _. by apply IH.
Qed.

Lemma collect_returns (posts : worker -> list post) (n i : nat)
  (queue : list post) (finished : list worker) :
  (collect w posts n i queue finished).2 = inr tt.
Proof.
  revert i queue finished. induction n as [| n IH]; intros i queue finished;
    [done |].
  simpl. destruct (queue ++ _) as [| [event_type d] queue']; [apply IH |].
  unfold bind; simpl. apply IH.
Qed.

Lemma summary_quiet (history : json) :
  Forall quiet (emitted (_generate_history_summary_sync w history)).
Proof.
  unfold _generate_history_summary_sync.
  destruct (negb (truthy history)); [constructor |].
  apply Forall_emitted_bind; [by repeat constructor | intros _ _].
  apply Forall_emitted_bind; [constructor | intros [t |] _]; constructor.
Qed.

Lemma frames_app (l1 l2 : list action) :
  frames (l1 ++ l2) = frames l1 ++ frames l2.
Proof. apply flat_map_app. Qed.

Lemma frames_quiet (l : list action) :
  Forall quiet l -> Forall (fun f => is_done f = false) (frames l).
Proof.
  induction 1 as [| a l Ha _ IH]; [constructor |].
  destruct a; simpl; try done. by constructor.
Qed.

Lemma filter_none {X} (p : X -> bool) (l : list X) :
  Forall (fun x => p x = false) l -> List.filter p l = [].
Proof.
  induction 1 as [| x l Hx _ IH]; [done |]. simpl. by rewrite Hx.
Qed.

(** What [finally: yield done] makes of a [try] block that yields no
    [done] block and swallows its exceptions. *)
Lemma finally_done (body : run action unit) :
  Forall quiet (emitted body) ->
  body.2 = inr tt ->
  let r := try_finally body (emit (Yield done_frame)) in
  r.2 = inr tt
  /\ last (frames (emitted r)) = Some done_frame
  /\ length (List.filter is_done (frames (emitted r))) = 1%nat
  /\ exists before,
       frames (emitted r) = before ++ [done_frame]
       /\ Forall (fun f => is_done f = false) before.
Proof.
  intros Hq Hret r. subst r. rewrite emitted_try_finally, frames_app.
  apply frames_quiet in Hq.
  split; [| split; [| split]].
  - done.
  - simpl. apply last_snoc.
  - rewrite List.filter_app, (filter_none _ _ Hq). reflexivity.
  - eexists. split; [reflexivity | exact Hq].
Qed.

Lemma try_except_returns (body : run action unit) (x : action) :
  (try_except body (fun _ => emit x)).2 = inr tt.
Proof. unfold try_except. by destruct body as [l [e | []]]. Qed.

Lemma try_block_quiet (message : pystr) (history : json) (pii_found : bool)
  (masked_message : pystr) (body : run action unit) :
  body =
    (if search html_tag_pattern message then
       emit (Yield (error_delta html_refusal))
     else if pii_found then
       emit (Yield (error_delta privacy_refusal))
     else
       (n <- lift (py_len history) ;;
        processed_history <-
          (if negb (n =? 0)%nat then
             summary <- _generate_history_summary_sync w history ;;
             if negb (bool_decide (summary = []))
             then ret (summary_turn summary)
             else ret history
           else ret history) ;;
        emit (CompletionCall masked_message processed_history) ;;;
        let generated := primary_response w masked_message processed_history in
        out <- relay generated.1 [] None ;;
        match generated.2 with
        | Some e => raise e
        | None => ret tt
        end ;;;
        collect w
          (posts_of w out.1 (masked_message ++ of_string " " ++ out.1) out.2)
          2 0 [] [])%run) ->
  Forall quiet (emitted body).
Proof.
  intros ->.
  destruct (search html_tag_pattern message); [by repeat constructor |].
  destruct pii_found; [by repeat constructor |].
  apply Forall_emitted_bind; [constructor | intros n _].
  apply Forall_emitted_bind.
  { destruct (negb (n =? 0)%nat); [| constructor].
    apply Forall_emitted_bind; [apply summary_quiet | intros summary _].
    destruct (negb _); constructor. }
  intros processed_history _.
  apply Forall_emitted_bind; [by repeat constructor | intros _ _].
  apply Forall_emitted_bind; [apply relay_quiet | intros out _].
  apply Forall_emitted_bind.
  { destruct ((primary_response w masked_message processed_history).2);
      constructor. }
  intros _ _. apply collect_quiet; [| constructor].
  intros k. apply posts_of_tagged.
Qed.

(** C1: on every path of the generator, whatever the message, the
    history, the PII flag and the services do, the stream ends normally,
    its last block is the [done] event and no other block is one. *)
Theorem done_exactly_once_and_last (message : pystr) (history : json)
  (pii_found : bool) (masked_message : pystr) :
  let r := generate_response_stream w message history pii_found masked_message in
  r.2 = inr tt
  /\ last (frames (emitted r)) = Some done_frame
  /\ length (List.filter is_done (frames (emitted r))) = 1%nat
  /\ exists before,
       frames (emitted r) = before ++ [done_frame]
       /\ Forall (fun f => is_done f = false) before.
Proof.
  unfold generate_response_stream. apply finally_done.
  - rewrite emitted_try_except. apply Forall_app. split.
    + by eapply try_block_quiet.
    + match goal with |- context [match ?r with inl _ => _ | inr _ => _ end] =>
        destruct r end; by repeat constructor.
  - apply try_except_returns.
Qed.

(** *** Who calls the Completion Service, and with what *)

Lemma relay_yields (items : list chunk) (full : pystr)
  (src : option (list pystr)) :
  Forall is_yield (emitted (relay items full src)).
Proof.
  revert full src. induction items as [| [t | urls] items IH]; intros full src.
  - constructor.
  - simpl. constructor; [by eexists | apply IH].
  - simpl. constructor; [by eexists | apply IH].
Qed.

Lemma collect_yields (posts : worker -> list post) (n i : nat)
  (queue : list post) (finished : list worker) :
  Forall is_yield (emitted (collect w posts n i queue finished)).
Proof.
  revert i queue finished. induction n as [| n IH]; intros i queue finished;
    [constructor |].
  simpl. destruct (queue ++ _) as [| [event_type d] queue']; [apply IH |].
  apply Forall_emitted_bind; [| intros _ _; apply IH].
  constructor; [by eexists | constructor].
Qed.

Lemma yield_gets (m : pystr) (a : action) : is_yield a -> completion_gets m a.
Proof. by intros [f ->]. Qed.

Lemma summary_gets (m : pystr) (history : json) :
  Forall (completion_gets m) (emitted (_generate_history_summary_sync w history)).
Proof.
  unfold _generate_history_summary_sync.
  destruct (negb (truthy history)); [constructor |].
  apply Forall_emitted_bind; [by repeat constructor | intros _ _].
  apply Forall_emitted_bind; [constructor | intros [t |] _]; constructor.
Qed.

Lemma stream_completion_gets (message : pystr) (history : json)
  (pii_found : bool) (masked_message : pystr) :
  Forall (completion_gets masked_message)
    (emitted (generate_response_stream w message history pii_found masked_message)).
Proof.
  unfold generate_response_stream.
  rewrite emitted_try_finally, emitted_try_except.
  repeat (apply Forall_app; split).
  - destruct (search html_tag_pattern message); [by repeat constructor |].
    destruct pii_found; [by repeat constructor |].
    apply Forall_emitted_bind; [constructor | intros n _].
    apply Forall_emitted_bind.
    { destruct (negb (n =? 0)%nat); [| constructor].
      apply Forall_emitted_bind.
      - apply summary_gets.
      - intros summary _. destruct (negb _); constructor. }
    intros processed_history _.
    apply Forall_emitted_bind; [by repeat constructor | intros _ _].
    apply Forall_emitted_bind.
    { eapply Forall_impl; [apply relay_yields | apply yield_gets]. }
    intros out _. apply Forall_emitted_bind.
    { destruct ((primary_response w masked_message processed_history).2);
        constructor. }
    intros _ _. eapply Forall_impl; [apply collect_yields | apply yield_gets].
  - match goal with |- context [match ?r with inl _ => _ | inr _ => _ end] =>
      destruct r end; by repeat constructor.
  - by repeat constructor.
Qed.

Lemma completion_calls_In (l : list action) (m m' : pystr) (h : json) :
  Forall (completion_gets m) l -> In (m', h) (completion_calls l) -> m' = m.
Proof.
  induction 1 as [| a l Ha _ IH]; simpl; [done |].
  rewrite in_app_iff. intros [Hin | Hin]; [| by apply IH].
  destruct a; simpl in *; try done. destruct Hin as [[= <- <-] | []]. done.
Qed.

(** *** The two refusals that stop short of the model *)

Lemma flagged_stream (message masked_message : pystr) (history : json) :
  generate_response_stream w message history true masked_message
  = ([Yield (error_delta (if search html_tag_pattern message
                          then html_refusal else privacy_refusal));
      Yield done_frame], inr tt).
Proof.
  unfold generate_response_stream.
  by destruct (search html_tag_pattern message).
Qed.

(** C2, as the code has it: when the PII check flags the message, no
    model is called (neither the summarizer nor the Completion Service)
    and the stream is one text block then [done]; the text is the privacy
    refusal unless the message also holds an HTML tag, in which case the
    HTML branch, tested first, answers with the formatting refusal. *)
Theorem pii_short_circuit (message : pystr) (history : json) :
  (PiiCheck.detect_and_mask_pii message).1 = true ->
  let found := PiiCheck.detect_and_mask_pii message in
  let r := generate_response_stream w message history found.1 found.2 in
  r = ([Yield (error_delta (if search html_tag_pattern message
                            then html_refusal else privacy_refusal));
        Yield done_frame], inr tt)
  /\ completion_calls (emitted r) = []
  /\ summarizer_calls (emitted r) = [].
Proof.
  intros Hpii found r. subst r found. rewrite Hpii, flagged_stream.
  by repeat split.
Qed.

(** *** The length check *)

Lemma detect_not_found (text : pystr) :
  (PiiCheck.detect_and_mask_pii text).1 = false ->
  (PiiCheck.detect_and_mask_pii text).2 = text.
Proof.
  unfold PiiCheck.detect_and_mask_pii. destruct text as [| c text]; [done |].
  by destruct (negb (existsb _ _)).
Qed.

Lemma sentinel_has_alnum : search alnum_pattern INVALID_INPUT = true.
Proof. reflexivity. Qed.

Lemma strip_length (s : pystr) : (length (strip s) <= length s)%nat.
Proof.
  assert (Hl : forall t, (length (lstrip t) <= length t)%nat).
  { induction t as [| c t IH]; simpl; [done |].
    destruct (isspace c); simpl; lia. }
  unfold strip, rstrip. rewrite length_rev.
  etrans; [apply Hl |]. rewrite length_rev. apply Hl.
Qed.

Lemma sentinels_in_bounds (m : pystr) :
  m = INVALID_INPUT \/ m = PROMPT_FILTER ->
  (len (strip m) = 39 /\ len m = 39)%Z.
Proof. by intros [-> | ->]. Qed.

Section Handler.
Variable PROMPT_INJECTION_KEYWORDS : list pystr.

Lemma keyword_scan_of_sentinel :
  after_keyword_scan PROMPT_INJECTION_KEYWORDS INVALID_INPUT = INVALID_INPUT
  \/ after_keyword_scan PROMPT_INJECTION_KEYWORDS INVALID_INPUT = PROMPT_FILTER.
Proof. unfold after_keyword_scan. destruct (_ || _); auto. Qed.

Lemma handler_stream (kv : list (pystr * json)) (message : pystr) :
  assoc (of_string "message") kv = Some (JStr message) ->
  conversation_handler_dev PROMPT_INJECTION_KEYWORDS w (Some (JObj kv))
  = if negb (truthy (JStr message)) then MessageRequired
    else
      EventStream
        (generate_response_stream w
           (screened PROMPT_INJECTION_KEYWORDS message)
           (default (JList []) (assoc (of_string "history") kv))
           (PiiCheck.detect_and_mask_pii
              (screened PROMPT_INJECTION_KEYWORDS message)).1
           (PiiCheck.detect_and_mask_pii
              (screened PROMPT_INJECTION_KEYWORDS message)).2).
Proof. intros Hmsg. unfold conversation_handler_dev. by rewrite Hmsg. Qed.

(** C6: a message whose trimmed length is under 3 or whose length is
    over 2048 is replaced by the invalid-input sentinel at the length
    check; whatever the request then does, every Completion Service call
    it makes carries a sentinel (the invalid-input one, or the
    prompt-filter one when a keyword occurs in it), never the message
    that came in. *)
Theorem out_of_bounds_replaced (kv : list (pystr * json)) (message : pystr)
  (r : run action unit) :
  (len (strip message) < 3 \/ len message > 2048)%Z ->
  assoc (of_string "message") kv = Some (JStr message) ->
  conversation_handler_dev PROMPT_INJECTION_KEYWORDS w (Some (JObj kv))
  = EventStream r ->
  after_length_check message = INVALID_INPUT
  /\ after_content_check (after_length_check message) = INVALID_INPUT
  /\ forall m h,
       In (m, h) (completion_calls (emitted r)) ->
       m = screened PROMPT_INJECTION_KEYWORDS message
       /\ (m = INVALID_INPUT \/ m = PROMPT_FILTER)
       /\ m <> message.
Proof.
  intros Hout Hmsg Hrun.
  assert (Hlen : after_length_check message = INVALID_INPUT).
  { unfold after_length_check.
    destruct Hout as [Hs | Hl].
    - apply Z.ltb_lt in Hs. by rewrite Hs.
    - apply Z.gtb_gt in Hl. rewrite Hl. by rewrite orb_true_r. }
  assert (Hcontent : after_content_check (after_length_check message) = INVALID_INPUT).
  { rewrite Hlen. unfold after_content_check. by rewrite sentinel_has_alnum. }
  split; [done |]. split; [done |]. intros m h Hin.
  rewrite (handler_stream _ _ Hmsg) in Hrun.
  destruct (negb (truthy (JStr message))); [done |].
  injection Hrun as <-.
  assert (Hscreened :
    screened PROMPT_INJECTION_KEYWORDS message = INVALID_INPUT
    \/ screened PROMPT_INJECTION_KEYWORDS message = PROMPT_FILTER).
  { unfold screened. rewrite Hcontent. apply keyword_scan_of_sentinel. }
  assert (Hm : m = screened PROMPT_INJECTION_KEYWORDS message).
  { set (text := screened PROMPT_INJECTION_KEYWORDS message) in *.
    destruct (PiiCheck.detect_and_mask_pii text).1 eqn:Hfound.
    - rewrite flagged_stream in Hin. destruct Hin.
    - rewrite <- (detect_not_found text Hfound).
      eapply completion_calls_In; [apply stream_completion_gets | exact Hin]. }
  split; [done |]. split; [by rewrite Hm |].
  intros ->. rewrite Hm in Hout.
  destruct (sentinels_in_bounds _ Hscreened) as [Hs Hl]. lia.
Qed.

End Handler.

(** *** The history summarizer *)

(** C7, where the code falls short of it: with a non-empty history, no
    HTML tag and no PII, a summarizer call that raises (or answers
    without text) ends the request: the stream is the fixed error block
    then [done], and the Completion Service is never called. *)
Theorem summarizer_failure_fails_request (message masked_message : pystr)
  (turn : json) (turns : list json) :
  search html_tag_pattern message = false ->
  (exists e, summary_call w (JList (turn :: turns)) = inl e)
  \/ summary_call w (JList (turn :: turns)) = inr None ->
  let r := generate_response_stream w message (JList (turn :: turns)) false
             masked_message in
  r = ([SummarizerCall (JList (turn :: turns));
        Yield (error_delta unavailable); Yield done_frame], inr tt)
  /\ completion_calls (emitted r) = [].
Proof.
  intros Hhtml Hfail r. subst r. unfold generate_response_stream.
  rewrite Hhtml. unfold _generate_history_summary_sync, lift. simpl.
  destruct Hfail as [[e He] | Hnone].
  - rewrite He. by split.
  - rewrite Hnone. by split.
Qed.

Lemma completion_calls_yields (l : list action) :
  Forall is_yield l -> completion_calls l = [].
Proof.
  induction 1 as [| a l [f ->] _ IH]; [done |]. exact IH.
Qed.

Lemma completion_calls_app (l1 l2 : list action) :
  completion_calls (l1 ++ l2) = completion_calls l1 ++ completion_calls l2.
Proof. apply flat_map_app. Qed.

Lemma bind_value {E A B} (l : list E) (v : A) (f : A -> run E B) :
  bind (l, inr v) f = (l ++ (f v).1, (f v).2).
Proof. reflexivity. Qed.

#[local] Arguments collect : simpl never.
#[local] Arguments relay : simpl never.

(** From the Completion Service call on, the generator makes no other. *)
Lemma main_path_calls (masked_message : pystr) (processed_history : json) :
  completion_calls
    (emit (CompletionCall masked_message processed_history) ;;;
     let generated := primary_response w masked_message processed_history in
     out <- relay generated.1 [] None ;;
     match generated.2 with
     | Some e => raise e
     | None => ret tt
     end ;;;
     collect w
       (posts_of w out.1 (masked_message ++ of_string " " ++ out.1) out.2)
       2 0 [] [])%run.1
  = [(masked_message, processed_history)].
Proof.
  change (?x.1) with (emitted x).
  rewrite emitted_bind. simpl. f_equal.
  rewrite emitted_bind, completion_calls_app.
  rewrite (completion_calls_yields _ (relay_yields _ _ _)). simpl.
  destruct (relay_returns (primary_response w masked_message processed_history).1
              [] None) as [out ->].
  rewrite emitted_bind.
  destruct ((primary_response w masked_message processed_history).2); [done |].
  cbn [emitted ret raise fst snd app].
  apply completion_calls_yields, collect_yields.
Qed.

(** The generator once the history to send is settled: one Completion
    Service call, with the masked message and that history. *)
Ltac settle_history Hhtml Hprefix :=
  unfold generate_response_stream, lift; rewrite Hhtml;
  cbn [py_len length];
  rewrite !bind_value; cbn [negb Nat.eqb app];
  rewrite ?Hprefix, ?bind_ret_l, ?bind_value;
  rewrite emitted_try_finally, emitted_try_except, !completion_calls_app;
  cbn [emitted fst snd];
  rewrite ?completion_calls_app, main_path_calls;
  match goal with |- context [match ?r with inl _ => _ | inr _ => _ end] =>
    destruct r end; reflexivity.

(** The two summarizer outcomes the generator does provide for, and the
    empty history. *)
Lemma summary_replaces_history (message masked_message summary : pystr)
  (turn : json) (turns : list json) :
  search html_tag_pattern message = false ->
  summary_call w (JList (turn :: turns)) = inr (Some summary) ->
  strip summary <> [] ->
  completion_calls
    (emitted (generate_response_stream w message (JList (turn :: turns)) false
                masked_message))
  = [(masked_message, summary_turn (strip summary))].
Proof.
  intros Hhtml Hcall Hne.
  assert (Hprefix :
    (summary0 <- _generate_history_summary_sync w (JList (turn :: turns)) ;;
     if negb (bool_decide (summary0 = []))
     then ret (summary_turn summary0)
     else ret (JList (turn :: turns)))%run
    = ([SummarizerCall (JList (turn :: turns))],
       inr (summary_turn (strip summary)))).
  { unfold _generate_history_summary_sync, lift. simpl. rewrite Hcall.
    unfold bind; simpl. by rewrite bool_decide_false. }
  settle_history Hhtml Hprefix.
Qed.

Lemma empty_summary_keeps_history (message masked_message summary : pystr)
  (turn : json) (turns : list json) :
  search html_tag_pattern message = false ->
  summary_call w (JList (turn :: turns)) = inr (Some summary) ->
  strip summary = [] ->
  completion_calls
    (emitted (generate_response_stream w message (JList (turn :: turns)) false
                masked_message))
  = [(masked_message, JList (turn :: turns))].
Proof.
  intros Hhtml Hcall Hempty.
  assert (Hprefix :
    (summary0 <- _generate_history_summary_sync w (JList (turn :: turns)) ;;
     if negb (bool_decide (summary0 = []))
     then ret (summary_turn summary0)
     else ret (JList (turn :: turns)))%run
    = ([SummarizerCall (JList (turn :: turns))], inr (JList (turn :: turns)))).
  { unfold _generate_history_summary_sync, lift. simpl. rewrite Hcall.
    unfold bind; simpl. by rewrite Hempty. }
  settle_history Hhtml Hprefix.
Qed.

Lemma empty_history_skips_summary (message masked_message : pystr) :
  search html_tag_pattern message = false ->
  completion_calls
    (emitted (generate_response_stream w message (JList []) false
                masked_message))
  = [(masked_message, JList [])].
Proof.
  intros Hhtml.
  settle_history Hhtml (eq_refl : JList [] = JList []).
Qed.

End Stream.

(** ** The webhook (main.py, [update_embedding]) *)

Section WebhookFacts.

Lemma in_strs_In (v : json) (l : list pystr) :
  in_strs v l = true <-> exists t, v = JStr t /\ In t l.
Proof.
  destruct v as [ |b|z|s|l'|kv]; simpl;
    try (split; [done | by intros (t & ? & _)]).
  rewrite existsb_exists. split.
  - intros (t & Hin & Heq). apply bool_decide_eq_true in Heq as ->. eauto.
  - intros (t & [= ->] & Hin). exists t. split; [done |].
    by apply bool_decide_eq_true.
Qed.

Lemma action_delete_iff (v : json) :
  action_of_type v = Some (of_string "delete")
  <-> exists t, v = JStr t /\ In t DELETE_TYPES.
Proof.
  unfold action_of_type. rewrite <- in_strs_In.
  destruct (in_strs v DELETE_TYPES); [done |].
  destruct (in_strs v UPSERT_TYPES); by split.
Qed.

Lemma action_upsert_iff (v : json) :
  action_of_type v = Some (of_string "upsert")
  <-> v = jstr "content" \/ v = jstr "media".
Proof.
  unfold action_of_type.
  destruct (in_strs v DELETE_TYPES) eqn:Hd.
  - split; [done |]. intros Hv. exfalso.
    destruct Hv as [-> | ->]; vm_compute in Hd; discriminate.
  - destruct (in_strs v UPSERT_TYPES) eqn:Hu.
    + split; [intros _ | done]. apply in_strs_In in Hu as (t & -> & Hin).
      simpl in Hin. destruct Hin as [<- | [<- | []]]; auto.
    + split; [done |]. intros Hv. exfalso.
      destruct Hv as [-> | ->]; vm_compute in Hu; discriminate.
Qed.

Lemma delete_types_distinct : NoDup DELETE_TYPES.
Proof. apply (bool_decide_unpack _). by vm_compute. Qed.

Lemma recognised_type_nonempty (t action : pystr) :
  action_of_type (JStr t) = Some action -> t <> [].
Proof. intros H ->. vm_compute in H. discriminate. Qed.

Variable URL_PREFIXES_EMBEDDING : pystr.
Variable publish_ok : json -> bool.
Variable result_ok : json -> bool.

Lemma unknown_type_400 (kv : list (pystr * json)) :
  action_of_type (default JNull (assoc (of_string "type") kv)) = None ->
  exists r,
    update_embedding URL_PREFIXES_EMBEDDING publish_ok result_ok (JObj kv)
    = ([], inr r)
    /\ status r = 400%Z.
Proof.
  intros Hnone. unfold update_embedding.
  destruct (negb (truthy (JObj kv))); [by eexists |].
  destruct (negb (truthy _)); [by eexists |].
  rewrite Hnone. by eexists.
Qed.

(** What a task handed to the publisher tells of the request. *)
Lemma handed_task (query_data msg : json) :
  In msg (emitted (update_embedding URL_PREFIXES_EMBEDDING publish_ok result_ok
                     query_data)) ->
  exists kv type_name action url,
    query_data = JObj kv
    /\ assoc (of_string "type") kv = Some (JStr type_name)
    /\ action_of_type (JStr type_name) = Some action
    /\ final_url_of query_data type_name = Some (JStr url)
    /\ startswith_any url (parse_prefixes URL_PREFIXES_EMBEDDING) = true
    /\ msg = JObj ([(of_string "action", JStr action); (of_string "url", JStr url)]
                   ++ (if Py.eqb action (of_string "upsert")
                       then [(of_string "type", JStr type_name)]
                       else []))
    /\ publish_ok msg = true.
Proof.
  unfold update_embedding.
  destruct (negb (truthy query_data)); [done |].
  destruct query_data as [ |b|z|s|l|kv]; try done.
  destruct (assoc (of_string "type") kv) as [data_type |] eqn:Htype; [| done].
  cbn [default from_option id].
  destruct (negb (truthy data_type)); [done |].
  destruct (action_of_type data_type) as [action |] eqn:Hact; [| done].
  destruct data_type as [ |b|z|type_name|l|kv']; try done.
  destruct (final_url_of _ _) as [final_url |] eqn:Hurl; [| done].
  destruct (bool_decide (parse_prefixes URL_PREFIXES_EMBEDDING = [])); [done |].
  destruct final_url as [ |b|z|url|l|kv']; try done.
  destruct (negb (startswith_any url _)) eqn:Hallowed; [done |].
  destruct (publish_ok _) eqn:Hpub; [| done].
  apply negb_false_iff in Hallowed.
  rewrite emitted_bind. cbn [emit emitted fst snd app].
  assert (Hnone : forall r : reply, emitted (ret (E := json) r) = []) by done.
  destruct (result_ok _); rewrite Hnone;
    (intros [<- | []]; exists kv, type_name, action, url; by repeat split).
Qed.

Lemma published_task (query_data msg : json) :
  In msg (emitted (update_embedding URL_PREFIXES_EMBEDDING publish_ok result_ok
                     query_data)) ->
  exists kv action url,
    query_data = JObj kv
    /\ action_of_type (default JNull (assoc (of_string "type") kv)) = Some action
    /\ msg = JObj ([(of_string "action", JStr action); (of_string "url", JStr url)]
                   ++ (if Py.eqb action (of_string "upsert")
                       then [(of_string "type",
                              default JNull (assoc (of_string "type") kv))]
                       else []))
    /\ parse_prefixes URL_PREFIXES_EMBEDDING <> [].
Proof.
  intros Hin.
  destruct (handed_task _ _ Hin)
    as (kv & type_name & action & url & -> & Htype & Hact & _ & Hallowed & -> & _).
  exists kv, action, url. rewrite Htype. repeat split; try done.
  intros Hnil. by rewrite Hnil in Hallowed.
Qed.

(** A request that names a recognised type and carries an allowed URL
    in the field of that type: the task goes to the publisher, and the
    answer is 202 once [future.result()] has returned. *)
Lemma well_formed_request (kv : list (pystr * json))
  (type_name action url : pystr) :
  assoc (of_string "type") kv = Some (JStr type_name) ->
  action_of_type (JStr type_name) = Some action ->
  final_url_of (JObj kv) type_name = Some (JStr url) ->
  startswith_any url (parse_prefixes URL_PREFIXES_EMBEDDING) = true ->
  let task :=
    JObj ([(of_string "action", JStr action); (of_string "url", JStr url)]
          ++ (if Py.eqb action (of_string "upsert")
              then [(of_string "type", JStr type_name)]
              else [])) in
  update_embedding URL_PREFIXES_EMBEDDING publish_ok result_ok (JObj kv)
  = if publish_ok task
    then ([task], inr (if result_ok task then Accepted else PublishFailed))
    else ([], inr PublishFailed).
Proof.
  intros Htype Hact Hurl Hallowed task. unfold update_embedding.
  destruct kv as [| item kv]; [done |].
  change (negb (truthy (JObj (item :: kv)))) with false. cbv iota.
  rewrite Htype. cbn [default from_option id].
  pose proof (recognised_type_nonempty _ _ Hact) as Hne.
  destruct type_name as [| c type_name]; [done |].
  change (negb (truthy (JStr (c :: type_name)))) with false. cbv iota.
  rewrite Hact, Hurl.
  rewrite bool_decide_false
    by (intros Hnil; by rewrite Hnil in Hallowed).
  rewrite Hallowed. cbn [negb]. fold task.
  destruct (publish_ok task); [| done].
  by destruct (result_ok task).
Qed.

End WebhookFacts.

(** C8, as the code has it: the handler maps a fixed set of exactly 7
    [type] values to a delete task and [content] and [media] to an upsert
    task: for a request of such a type that carries an allowed URL in the
    field of its type, Pub/Sub taking the message, it hands over the task
    [{action, url}] (with the [type] for an upsert) and answers 202.  It
    answers 400 when [type] is missing or any other value, and hands over
    no task but one that carries the action of its type. *)
Theorem webhook_type_mapping :
  (NoDup DELETE_TYPES /\ length DELETE_TYPES = 7%nat)
  /\ (forall v, action_of_type v = Some (of_string "delete")
                <-> exists t, v = JStr t /\ In t DELETE_TYPES)
  /\ (forall v, action_of_type v = Some (of_string "upsert")
                <-> v = jstr "content" \/ v = jstr "media")
  /\ (forall cfg publish_ok result_ok kv type_name url,
        assoc (of_string "type") kv = Some (JStr type_name) ->
        final_url_of (JObj kv) type_name = Some (JStr url) ->
        startswith_any url (parse_prefixes cfg) = true ->
        (forall task, publish_ok task = true /\ result_ok task = true) ->
        (In type_name DELETE_TYPES ->
         update_embedding cfg publish_ok result_ok (JObj kv)
         = ([JObj [(of_string "action", jstr "delete");
                   (of_string "url", JStr url)]], inr Accepted))
        /\ (In type_name UPSERT_TYPES ->
            update_embedding cfg publish_ok result_ok (JObj kv)
            = ([JObj [(of_string "action", jstr "upsert");
                      (of_string "url", JStr url);
                      (of_string "type", JStr type_name)]], inr Accepted)))
  /\ (forall cfg publish_ok result_ok kv,
        action_of_type (default JNull (assoc (of_string "type") kv)) = None ->
        exists r,
          update_embedding cfg publish_ok result_ok (JObj kv) = ([], inr r)
          /\ status r = 400%Z)
  /\ (forall cfg publish_ok result_ok query_data msg,
        In msg (emitted (update_embedding cfg publish_ok result_ok query_data)) ->
        exists kv action url,
          query_data = JObj kv
          /\ action_of_type (default JNull (assoc (of_string "type") kv))
             = Some action
          /\ msg = JObj ([(of_string "action", JStr action);
                          (of_string "url", JStr url)]
                         ++ (if Py.eqb action (of_string "upsert")
                             then [(of_string "type",
                                    default JNull (assoc (of_string "type") kv))]
                             else []))).
Proof.
  split; [split; [apply delete_types_distinct | reflexivity] |].
  split; [apply action_delete_iff |].
  split; [apply action_upsert_iff |].
  split.
  { intros cfg publish_ok result_ok kv type_name url Htype Hurl Hallowed Hpub.
    split; intros Hin.
    - assert (Hact : action_of_type (JStr type_name) = Some (of_string "delete"))
        by (apply action_delete_iff; by exists type_name).
      rewrite (well_formed_request cfg publish_ok result_ok kv type_name _ url
                 Htype Hact Hurl Hallowed).
      destruct (Hpub (JObj ([(of_string "action", JStr (of_string "delete"));
                             (of_string "url", JStr url)] ++ [])))
        as [Hp Hr].
      change (Py.eqb (of_string "delete") (of_string "upsert")) with false.
      cbv iota. by rewrite Hp, Hr.
    - assert (Hact : action_of_type (JStr type_name) = Some (of_string "upsert")).
      { apply action_upsert_iff. simpl in Hin.
        destruct Hin as [<- | [<- | []]]; auto. }
      rewrite (well_formed_request cfg publish_ok result_ok kv type_name _ url
                 Htype Hact Hurl Hallowed).
      destruct (Hpub (JObj ([(of_string "action", JStr (of_string "upsert"));
                             (of_string "url", JStr url)]
                            ++ [(of_string "type", JStr type_name)])))
        as [Hp Hr].
      change (Py.eqb (of_string "upsert") (of_string "upsert")) with true.
      cbv iota. by rewrite Hp, Hr. }
  split; [intros; by apply unknown_type_400 |].
  intros cfg publish_ok result_ok query_data msg Hin.
  destruct (published_task _ _ _ _ _ Hin) as (kv & action & url & ? & ? & ? & _).
  by exists kv, action, url.
Qed.

(** A [media-deleted] request for the sample page: the delete task is
    handed over and the answer is 202. *)
Lemma webhook_type_mapping_witness :
  update_embedding (of_string "https://nation.example") Samples.publish_all
    Samples.publish_all
    (JObj [(of_string "type", jstr "media-deleted");
           (of_string "mediaUrl", JStr Samples.page_url)])
  = ([JObj [(of_string "action", jstr "delete");
            (of_string "url", JStr Samples.page_url)]], inr Accepted)
  /\ status Accepted = 202%Z.
Proof.
  split; [| reflexivity].
  refine (proj1 (proj1 (proj2 (proj2 (proj2 webhook_type_mapping)))
                   (of_string "https://nation.example") Samples.publish_all
                   Samples.publish_all
                   [(of_string "type", jstr "media-deleted");
                    (of_string "mediaUrl", JStr Samples.page_url)]
                   (of_string "media-deleted") Samples.page_url _ _ _ _) _).
  - reflexivity.
  - reflexivity.
  - reflexivity.
  - intros task. split; reflexivity.
  - vm_compute. do 2 right. left. reflexivity.
Defined.

(** C8 as stated fails: no 8 distinct [type] values map to delete. *)
Lemma eight_delete_types_refuted :
  ~ (exists l : list pystr,
       NoDup l /\ length l = 8%nat
       /\ forall t, In t l ->
                    action_of_type (JStr t) = Some (of_string "delete")).
Proof.
  intros (l & Hnd & Hlen & Hall).
  assert (Hincl : incl l DELETE_TYPES).
  { intros t Hin. apply Hall, action_delete_iff in Hin as (t' & [= <-] & Hin).
    exact Hin. }
  apply NoDup_ListNoDup in Hnd.
  pose proof (List.NoDup_incl_length Hnd Hincl) as Hle.
  rewrite Hlen in Hle. vm_compute in Hle. lia.
Qed.

(** ** The empty allow-list (main.py and subscriber.py) *)

Section FailClosed.
Variable URL_PREFIXES_EMBEDDING : pystr.
Hypothesis unconfigured : parse_prefixes URL_PREFIXES_EMBEDDING = [].

Lemma webhook_publishes_nothing (publish_ok result_ok : json -> bool)
  (query_data : json) :
  emitted (update_embedding URL_PREFIXES_EMBEDDING publish_ok result_ok
             query_data) = [].
Proof using unconfigured.
  destruct (emitted _) as [| msg l] eqn:Hem; [done |]. exfalso.
  destruct (published_task URL_PREFIXES_EMBEDDING publish_ok result_ok
              query_data msg)
    as (_ & _ & _ & _ & _ & _ & Hne); [rewrite Hem; by left | done].
Qed.

(** The view returns 400 or 403, or raises, and that for a body that is
    no object only (on [query_data.get]). *)
Lemma webhook_never_accepts (publish_ok result_ok : json -> bool)
  (query_data : json) :
  match (update_embedding URL_PREFIXES_EMBEDDING publish_ok result_ok
           query_data).2 with
  | inr r => status r = 400%Z \/ status r = 403%Z
  | inl _ => forall kv, query_data <> JObj kv
  end.
Proof using unconfigured.
  unfold update_embedding. rewrite unconfigured.
  destruct (negb (truthy query_data)); [by left |].
  destruct query_data as [ |b|z|s|l|kv]; try done.
  destruct (negb (truthy _)); [by left |].
  destruct (action_of_type _) as [action |]; [| by left].
  destruct (default JNull _) as [ |b|z|type_name|l|kv']; try by left.
  destruct (final_url_of _ _) as [final_url |]; [| by left].
  by right.
Qed.

Lemma webhook_403 (publish_ok result_ok : json -> bool)
  (kv : list (pystr * json)) (type_name action : pystr) (final_url : json) :
  assoc (of_string "type") kv = Some (JStr type_name) ->
  action_of_type (JStr type_name) = Some action ->
  final_url_of (JObj kv) type_name = Some final_url ->
  update_embedding URL_PREFIXES_EMBEDDING publish_ok result_ok (JObj kv)
  = ([], inr NotConfigured).
Proof using unconfigured.
  intros Htype Hact Hurl. unfold update_embedding.
  destruct kv as [| item kv]; [done |].
  change (negb (truthy (JObj (item :: kv)))) with false. cbv iota.
  rewrite Htype. cbn [default from_option id].
  pose proof (recognised_type_nonempty _ _ Hact) as Hne.
  destruct type_name as [| c type_name]; [done |].
  change (negb (truthy (JStr (c :: type_name)))) with false. cbv iota.
  by rewrite Hact, Hurl, unconfigured.
Qed.

Variable scrape_website : pystr -> option pystr.
Variable fetch_media : pystr -> exn + list N.
Variable fl : faults.

Lemma consumer_leaves_store (message_data : option json) (s : store) :
  (message_processing_callback URL_PREFIXES_EMBEDDING scrape_website
     fetch_media fl message_data s).1 = s.
Proof using unconfigured.
  unfold message_processing_callback, ALLOWED_URL_PREFIXES.
  rewrite unconfigured.
  destruct message_data as [[ |b|z|t|l|data] |]; try done.
  by destruct (negb (truthy _)).
Qed.

Lemma consumer_nacks (data : list (pystr * json)) (url : json) (s : store) :
  assoc (of_string "url") data = Some url ->
  truthy url = true ->
  message_processing_callback URL_PREFIXES_EMBEDDING scrape_website
    fetch_media fl (Some (JObj data)) s
  = (s, ([Nack], inr tt)).
Proof using unconfigured.
  intros Hurl Htruthy. unfold message_processing_callback, ALLOWED_URL_PREFIXES.
  rewrite unconfigured, Hurl. cbn [default from_option id].
  by rewrite Htruthy.
Qed.

Lemma consumer_discards_urlless (data : list (pystr * json)) (s : store) :
  truthy (default JNull (assoc (of_string "url") data)) = false ->
  message_processing_callback URL_PREFIXES_EMBEDDING scrape_website
    fetch_media fl (Some (JObj data)) s
  = (s, ([Ack], inr tt)).
Proof.
  intros Hfalsy. unfold message_processing_callback. by rewrite Hfalsy.
Qed.

End FailClosed.

(** C4: with an empty allow-list every URL is rejected and nothing is
    accepted.  The webhook answers 403 to every request that names a
    recognised type and carries its URL field, whatever the URL; whatever
    the body, it hands no task to Pub/Sub and answers 400 or 403, unless
    the body is no object, which raises before any URL is read.  The
    consumer negative-acknowledges every task that carries a url, and
    leaves the store as it is whatever the message. *)
Theorem empty_allow_list_fails_closed (URL_PREFIXES_EMBEDDING : pystr) :
  parse_prefixes URL_PREFIXES_EMBEDDING = [] ->
  (forall publish_ok result_ok kv type_name action final_url,
     assoc (of_string "type") kv = Some (JStr type_name) ->
     action_of_type (JStr type_name) = Some action ->
     final_url_of (JObj kv) type_name = Some final_url ->
     update_embedding URL_PREFIXES_EMBEDDING publish_ok result_ok (JObj kv)
     = ([], inr NotConfigured)
     /\ status NotConfigured = 403%Z)
  /\ (forall publish_ok result_ok query_data,
        emitted (update_embedding URL_PREFIXES_EMBEDDING publish_ok result_ok
                   query_data) = []
        /\ match (update_embedding URL_PREFIXES_EMBEDDING publish_ok result_ok
                    query_data).2 with
           | inr r => status r = 400%Z \/ status r = 403%Z
           | inl _ => forall kv, query_data <> JObj kv
           end)
  /\ (forall scrape_website fetch_media fl data url s,
        assoc (of_string "url") data = Some url ->
        truthy url = true ->
        message_processing_callback URL_PREFIXES_EMBEDDING scrape_website
          fetch_media fl (Some (JObj data)) s
        = (s, ([Nack], inr tt)))
  /\ (forall scrape_website fetch_media fl message_data s,
        (message_processing_callback URL_PREFIXES_EMBEDDING scrape_website
           fetch_media fl message_data s).1 = s).
Proof.
  intros Hempty. split; [| split; [| split]].
  - intros. split; [by eapply webhook_403 | done].
  - intros. split; [by apply webhook_publishes_nothing
                   | by apply webhook_never_accepts].
  - intros. by eapply consumer_nacks.
  - intros. by apply consumer_leaves_store.
Qed.

(** With nothing configured, the webhook answers 403 to a content
    request for the sample page, and the consumer nacks the sample
    upsert task and leaves the store empty. *)
Lemma empty_allow_list_fails_closed_witness :
  parse_prefixes [] = []
  /\ update_embedding [] Samples.publish_all Samples.publish_all
       (JObj [(of_string "type", jstr "content");
              (of_string "urls",
               JObj [(of_string "en-us", JStr Samples.page_url)])])
     = ([], inr NotConfigured)
  /\ message_processing_callback [] Samples.some_page Samples.no_media all_ok
       (Some Samples.upsert_task) empty_store
     = (empty_store, ([Nack], inr tt)).
Proof.
  split; [reflexivity |]. split.
  - refine (proj1 (proj1
              (empty_allow_list_fails_closed [] (eq_refl : parse_prefixes [] = []))
              Samples.publish_all Samples.publish_all
              [(of_string "type", jstr "content");
               (of_string "urls",
                JObj [(of_string "en-us", JStr Samples.page_url)])]
              (of_string "content") (of_string "upsert")
              (JStr Samples.page_url) _ _ _)); reflexivity.
  - apply (proj1 (proj2 (proj2
             (empty_allow_list_fails_closed [] (eq_refl : parse_prefixes [] = []))))
           Samples.some_page Samples.no_media all_ok _ (JStr Samples.page_url));
      reflexivity.
Defined.

(** What both components settle before they look at the allow-list: the
    consumer discards with [ack] a task that has no url, and the webhook
    answers 400 to a request whose type it does not know. *)
Example settled_before_allow_list :
  message_processing_callback [] Samples.some_page Samples.no_media all_ok
    (Some (JObj [(of_string "action", jstr "upsert")])) empty_store
  = (empty_store, ([Ack], inr tt))
  /\ (update_embedding [] Samples.publish_all Samples.publish_all
        (JObj [(of_string "type", jstr "content-archived");
               (of_string "urls",
                JObj [(of_string "en-us", JStr Samples.page_url)])])).2
     = inr UnsupportedType
  /\ status UnsupportedType = 400%Z.
Proof. repeat split. Qed.

(** ** The vector store (vector_store.py) *)

Section Labels.

Lemma hex_of_alphabet (n : nat) (x c : N) :
  In c (Sha256.hex_of Sha256.hex_lower n x) -> In c Sha256.hex_lower.
Proof.
  revert x. induction n as [| n IH]; intros x; simpl; [done |].
  rewrite in_app_iff. intros [Hin | [<- | []]]; [by eapply IH |].
  unfold Sha256.hex_digit.
  destruct (nth_in_or_default (N.to_nat (N.land x 15)) Sha256.hex_lower 48)
    as [Hin | ->]; [done | by left].
Qed.

Lemma hexdigest_no_bar (msg : list N) : ~ In (c_ "|") (Sha256.hexdigest msg).
Proof.
  unfold Sha256.hexdigest. intros Hin.
  apply in_concat in Hin as (word & Hword & Hin).
  apply in_map_iff in Hword as (x & <- & _).
  apply hex_of_alphabet in Hin. vm_compute in Hin.
  repeat (destruct Hin as [Hin | Hin]; [discriminate |]). done.
Qed.

Lemma split_head (sep : N) (a b : pystr) :
  ~ In sep a -> hd [] (split sep (a ++ sep :: b)) = a.
Proof.
  induction a as [| c a IH]; intros Hnot; simpl.
  - by rewrite N.eqb_refl.
  - destruct (c =? sep) eqn:Heq.
    + apply N.eqb_eq in Heq. exfalso. apply Hnot. by left.
    + assert (Ha : ~ In sep a) by (intros ?; apply Hnot; by right).
      specialize (IH Ha). destruct (split sep (a ++ sep :: b)); simpl in *;
        by subst.
Qed.

Lemma blob_name_head (url : pystr) :
  hd [] (split (c_ "|") (_create_safe_gcs_blob_name (url_hash url) url))
  = url_hash url.
Proof.
  unfold _create_safe_gcs_blob_name. apply (split_head (c_ "|")).
  apply hexdigest_no_bar.
Qed.

Lemma blob_name_matches (url : pystr) (name : N) :
  hash_matches (url_hash url)
    (RagFile name (_create_safe_gcs_blob_name (url_hash url) url)) = true.
Proof.
  unfold hash_matches. simpl. rewrite blob_name_head.
  by apply bool_decide_eq_true.
Qed.

Lemma startswith_app (a b : pystr) : startswith (a ++ b) a = true.
Proof.
  induction a as [| c a IH]; simpl; [by destruct b |].
  by rewrite N.eqb_refl.
Qed.

Lemma endswith_app (a b : pystr) : endswith (a ++ b) b = true.
Proof. unfold endswith. rewrite rev_app_distr. apply startswith_app. Qed.

End Labels.

Section StoreFacts.

Lemma delete_existing_ok (h : pystr) (s : store) :
  _delete_existing_rag_file all_ok h s
  = Store (delete_first h (files s)) (bucket s) (next_name s).
Proof.
  unfold _delete_existing_rag_file. simpl. by rewrite andb_false_r.
Qed.

Lemma count_delete_first (h : pystr) (l : list rag_file) :
  length (List.filter (hash_matches h) (delete_first h l))
  = pred (length (List.filter (hash_matches h) l)).
Proof.
  induction l as [| file l IH]; simpl; [done |].
  destruct (hash_matches h file) eqn:Hm; simpl; [done |].
  by rewrite Hm.
Qed.

Lemma delete_first_none (h : pystr) (l : list rag_file) :
  existsb (hash_matches h) l = false -> delete_first h l = l.
Proof.
  induction l as [| file l IH]; simpl; [done |].
  destruct (hash_matches h file); [done |]. intros Hex. by rewrite IH.
Qed.

Lemma upsert_text_ok (c : N) (text url : pystr) (s : store) :
  let name := _create_safe_gcs_blob_name (url_hash url) url in
  upsert_text_content all_ok (c :: text) url s
  = (Store (delete_first (url_hash url) (files s) ++ [RagFile (next_name s) name])
       (<[name := Blob (Sha256.utf8 (c :: text))
                    (of_string "text/plain; charset=utf-8")]> (bucket s))
       (next_name s + 1),
     inr tt).
Proof.
  intros name. unfold upsert_text_content. rewrite delete_existing_ok.
  reflexivity.
Qed.

Lemma upsert_pdf_ok (b : N) (pdf : list N) (url : pystr) (s : store) :
  let name := _create_safe_gcs_blob_name (url_hash url) url in
  upsert_pdf_with_llm_parser all_ok (b :: pdf) url s
  = (Store (delete_first (url_hash url) (files s) ++ [RagFile (next_name s) name])
       (<[name := Blob (b :: pdf) (of_string "application/pdf")]> (bucket s))
       (next_name s + 1),
     inr tt).
Proof.
  intros name. unfold upsert_pdf_with_llm_parser. rewrite delete_existing_ok.
  reflexivity.
Qed.

Lemma delete_ok (c : N) (url : pystr) (s : store) :
  let name := _create_safe_gcs_blob_name (url_hash (c :: url)) (c :: url) in
  delete_document_by_url all_ok (c :: url) s
  = (Store (delete_first (url_hash (c :: url)) (files s))
       (delete name (bucket s)) (next_name s),
     inr tt).
Proof.
  intros name. unfold delete_document_by_url. rewrite delete_existing_ok.
  reflexivity.
Qed.

Lemma upsert_pdf_blob (pdf : list N) (url : pystr) (s : store) :
  pdf <> [] ->
  bucket (upsert_pdf_with_llm_parser all_ok pdf url s).1
  !! _create_safe_gcs_blob_name (url_hash url) url
  = Some (Blob pdf (of_string "application/pdf")).
Proof.
  intros Hne. destruct pdf as [| b pdf]; [done |].
  rewrite upsert_pdf_ok. apply lookup_insert_eq.
Qed.

(** What one upsert that has something to store leaves for the hash. *)
Lemma documents_after_upsert (url : pystr) (l : list rag_file) (name : N) :
  (length (List.filter (hash_matches (url_hash url)) l) <= 1)%nat ->
  List.filter (hash_matches (url_hash url))
    (delete_first (url_hash url) l
     ++ [RagFile name (_create_safe_gcs_blob_name (url_hash url) url)])
  = [RagFile name (_create_safe_gcs_blob_name (url_hash url) url)].
Proof.
  intros Hle. rewrite List.filter_app. simpl. rewrite blob_name_matches.
  pose proof (count_delete_first (url_hash url) l) as Hcount.
  destruct (List.filter _ (delete_first _ l)); [done |].
  simpl in Hcount. lia.
Qed.

Lemma upsert_text_documents (text url : pystr) (s : store) :
  text <> [] ->
  (count_documents (url_hash url) s <= 1)%nat ->
  documents_for (url_hash url) (upsert_text_content all_ok text url s).1
  = [RagFile (next_name s) (_create_safe_gcs_blob_name (url_hash url) url)].
Proof.
  intros Hne Hle. destruct text as [| c text]; [done |].
  rewrite upsert_text_ok. by apply documents_after_upsert.
Qed.

Lemma upsert_each_documents (texts : list pystr) (url : pystr) (s : store) :
  texts <> [] ->
  Forall (fun text => text <> []) texts ->
  (count_documents (url_hash url) s <= 1)%nat ->
  exists name,
    documents_for (url_hash url) (upsert_each texts url s)
    = [RagFile name (_create_safe_gcs_blob_name (url_hash url) url)].
Proof.
  intros Hne Hall. revert s.
  induction Hall as [| text texts Htext Hall IH]; [done |].
  intros s Hle. simpl.
  pose proof (upsert_text_documents text url s Htext Hle) as Hone.
  destruct texts as [| text' texts]; [by eexists |].
  apply IH; [done |]. unfold count_documents. by rewrite Hone.
Qed.

Lemma count_delete_first_le (h h' : pystr) (l : list rag_file) :
  (length (List.filter (hash_matches h') (delete_first h l))
   <= length (List.filter (hash_matches h') l))%nat.
Proof.
  induction l as [| file l IH]; simpl; [done |].
  destruct (hash_matches h file); simpl.
  - destruct (hash_matches h' file); simpl; lia.
  - destruct (hash_matches h' file); simpl; lia.
Qed.

Lemma at_most_one_after_upsert (url : pystr) (name : N) (l : list rag_file) :
  (forall h, (length (List.filter (hash_matches h) l) <= 1)%nat) ->
  forall h,
    (length (List.filter (hash_matches h)
               (delete_first (url_hash url) l
                ++ [RagFile name (_create_safe_gcs_blob_name (url_hash url) url)]))
     <= 1)%nat.
Proof.
  intros Hall h. rewrite List.filter_app, length_app. simpl.
  destruct (hash_matches h _) eqn:Hm; simpl.
  - unfold hash_matches in Hm. simpl in Hm. rewrite blob_name_head in Hm.
    apply bool_decide_eq_true in Hm as <-.
    rewrite count_delete_first. specialize (Hall (url_hash url)). lia.
  - pose proof (count_delete_first_le (url_hash url) h l).
    specialize (Hall h). lia.
Qed.

(** The Corpus Store guarantee, kept by the process itself as long as
    the store services answer: at most one live document per hash. *)
Lemma reachable_at_most_one (s : store) :
  reachable s -> forall h, (count_documents h s <= 1)%nat.
Proof.
  unfold count_documents, documents_for.
  induction 1 as [| text url s _ IH | pdf url s _ IH | url s _ IH]; intros h.
  - simpl. lia.
  - destruct text as [| c text]; [apply IH |].
    rewrite upsert_text_ok. by apply at_most_one_after_upsert.
  - destruct pdf as [| b pdf]; [apply IH |].
    rewrite upsert_pdf_ok. by apply at_most_one_after_upsert.
  - destruct url as [| c url]; [apply IH |].
    rewrite delete_ok. simpl.
    pose proof (count_delete_first_le (url_hash (c :: url)) h (files s)).
    specialize (IH h). lia.
Qed.

End StoreFacts.

(** C3, as the code has it: for every URL and non-empty extracted text,
    the store services answering, an upsert against a store that holds
    at most one document of that URL's hash deletes it and leaves exactly
    one, labelled [sha256(url)|...]; so does a second upsert, and so does
    any number of them.  (An upsert whose text is empty returns before
    the delete and leaves the store as it is.) *)
Theorem upsert_twice_one_document (url text1 text2 : pystr) (s : store) :
  text1 <> [] ->
  text2 <> [] ->
  (count_documents (url_hash url) s <= 1)%nat ->
  let name := _create_safe_gcs_blob_name (url_hash url) url in
  let s1 := (upsert_text_content all_ok text1 url s).1 in
  let s2 := (upsert_text_content all_ok text2 url s1).1 in
  documents_for (url_hash url) s1 = [RagFile (next_name s) name]
  /\ documents_for (url_hash url) s2 = [RagFile (next_name s1) name]
  /\ count_documents (url_hash url) s2 = 1%nat
  /\ startswith name (url_hash url ++ of_string "|") = true
  /\ (forall texts,
        texts <> [] ->
        Forall (fun text => text <> []) texts ->
        count_documents (url_hash url) (upsert_each texts url s) = 1%nat)
  /\ upsert_text_content all_ok [] url s = (s, inr tt).
Proof.
  intros Hne1 Hne2 Hle name s1 s2.
  pose proof (upsert_text_documents text1 url s Hne1 Hle) as H1.
  assert (Hle1 : (count_documents (url_hash url) s1 <= 1)%nat).
  { unfold count_documents. subst s1. by rewrite H1. }
  pose proof (upsert_text_documents text2 url s1 Hne2 Hle1) as H2.
  split; [done |]. split; [done |].
  split; [unfold count_documents; subst s2; by rewrite H2 |].
  split.
  { subst name. unfold _create_safe_gcs_blob_name.
    rewrite (app_assoc (url_hash url)). apply startswith_app. }
  split; [| done].
  intros texts Hne Hall.
  destruct (upsert_each_documents texts url s Hne Hall Hle) as [n Hn].
  unfold count_documents. by rewrite Hn.
Qed.

(** C5: for every URL, the store services answering, an upsert followed
    by a delete of the same URL, against a store that holds at most one
    document of its hash, leaves no document of that hash and no blob
    named [sha256(url)|quote(url).txt]; so for a text upsert (whatever
    the text) and for a PDF upsert. *)
Theorem upsert_then_delete_leaves_nothing (url text : pystr) (pdf : list N)
  (s : store) :
  url <> [] ->
  (count_documents (url_hash url) s <= 1)%nat ->
  let name := url_hash url ++ of_string "|" ++ Sha256.url_encode url
              ++ of_string ".txt" in
  let after_text :=
    (delete_document_by_url all_ok url
       (upsert_text_content all_ok text url s).1).1 in
  let after_pdf :=
    (delete_document_by_url all_ok url
       (upsert_pdf_with_llm_parser all_ok pdf url s).1).1 in
  (count_documents (url_hash url) after_text = 0%nat
   /\ bucket after_text !! name = None)
  /\ (count_documents (url_hash url) after_pdf = 0%nat
      /\ bucket after_pdf !! name = None).
Proof.
  intros Hurl Hle name after_text after_pdf.
  destruct url as [| c url]; [done |].
  assert (Hdelete : forall s',
    (count_documents (url_hash (c :: url)) s' <= 1)%nat ->
    count_documents (url_hash (c :: url))
      (delete_document_by_url all_ok (c :: url) s').1 = 0%nat
    /\ bucket (delete_document_by_url all_ok (c :: url) s').1 !! name = None).
  { intros s' Hle'. rewrite delete_ok. simpl. split.
    - unfold count_documents, documents_for in *. simpl.
      rewrite count_delete_first. lia.
    - apply lookup_delete_eq. }
  split; apply Hdelete.
  - destruct text as [| t text]; [done |].
    unfold count_documents.
    by rewrite (upsert_text_documents (t :: text) (c :: url) s).
  - destruct pdf as [| b pdf]; [done |].
    rewrite upsert_pdf_ok. unfold count_documents, documents_for. simpl.
    by rewrite documents_after_upsert.
Qed.

(** C9, as the code has it: text and PDF are stored alike.  The blob is
    named [sha256(url)|quote(url).txt] in both cases, the PDF one too,
    which differs by its content type only; the corpus file goes under
    that same name, so its label begins with the hash followed by [|]
    and its part before the first [|] is the hash. *)
Theorem blobs_named_alike (url : pystr) (s : store) :
  let name := url_hash url ++ of_string "|" ++ Sha256.url_encode url
              ++ of_string ".txt" in
  (forall text,
     text <> [] ->
     let s' := (upsert_text_content all_ok text url s).1 in
     bucket s' !! name
     = Some (Blob (Sha256.utf8 text) (of_string "text/plain; charset=utf-8"))
     /\ last (files s') = Some (RagFile (next_name s) name))
  /\ (forall pdf,
        pdf <> [] ->
        let s' := (upsert_pdf_with_llm_parser all_ok pdf url s).1 in
        bucket s' !! name = Some (Blob pdf (of_string "application/pdf"))
        /\ last (files s') = Some (RagFile (next_name s) name))
  /\ startswith name (url_hash url ++ of_string "|") = true
  /\ hd [] (split (c_ "|") name) = url_hash url
  /\ endswith name (of_string ".txt") = true.
Proof.
  intros name. split; [| split; [| split; [| split]]].
  - intros [| c text] Hne; [done |]. rewrite upsert_text_ok. simpl.
    split; [apply lookup_insert_eq | apply last_snoc].
  - intros [| b pdf] Hne; [done |]. rewrite upsert_pdf_ok. simpl.
    split; [apply lookup_insert_eq | apply last_snoc].
  - subst name. rewrite (app_assoc (url_hash url)). apply startswith_app.
  - apply blob_name_head.
  - subst name. rewrite !app_assoc. apply endswith_app.
Qed.

(** ** Worked examples *)

Section Examples.
Import Samples.

(** An out-of-bounds message, two characters long. *)
Lemma out_of_bounds_replaced_witness :
  after_length_check (of_string "hi") = INVALID_INPUT
  /\ after_content_check (U := ascii_only) (after_length_check (of_string "hi"))
     = INVALID_INPUT
  /\ forall m h,
       In (m, h)
         (completion_calls
            (emitted
               (generate_response_stream (U := ascii_only) (J := two_texts)
                  online
                  (screened (U := ascii_only) [of_string "system prompt"]
                     (of_string "hi"))
                  one_turn
                  (PiiCheck.detect_and_mask_pii (U := ascii_only)
                     (screened (U := ascii_only) [of_string "system prompt"]
                        (of_string "hi"))).1
                  (PiiCheck.detect_and_mask_pii (U := ascii_only)
                     (screened (U := ascii_only) [of_string "system prompt"]
                        (of_string "hi"))).2))) ->
       m = screened (U := ascii_only) [of_string "system prompt"] (of_string "hi")
       /\ (m = INVALID_INPUT \/ m = PROMPT_FILTER)
       /\ m <> of_string "hi".
Proof.
  apply (out_of_bounds_replaced (U := ascii_only) (J := two_texts) online
           [of_string "system prompt"]
           [(of_string "message", jstr "hi"); (of_string "history", one_turn)]
           (of_string "hi")).
  - left. reflexivity.
  - reflexivity.
  - reflexivity.
Defined.

(** The SSN example of the spec: flagged, no HTML tag, privacy refusal. *)
Lemma pii_short_circuit_witness :
  (PiiCheck.detect_and_mask_pii (U := ascii_only)
     (of_string "My SSN is 123-45-6789")).1 = true
  /\ generate_response_stream (U := ascii_only) (J := two_texts) online
       (of_string "My SSN is 123-45-6789") one_turn
       (PiiCheck.detect_and_mask_pii (U := ascii_only)
          (of_string "My SSN is 123-45-6789")).1
       (PiiCheck.detect_and_mask_pii (U := ascii_only)
          (of_string "My SSN is 123-45-6789")).2
     = ([Yield (error_delta privacy_refusal); Yield done_frame], inr tt).
Proof.
  split; [vm_compute; reflexivity |].
  apply (pii_short_circuit (U := ascii_only) (J := two_texts) online
           (of_string "My SSN is 123-45-6789") one_turn).
  vm_compute; reflexivity.
Defined.

(** C2 as stated fails: a message the PII check flags and that holds an
    HTML tag is answered with the formatting refusal, not the privacy
    one. *)
Lemma pii_with_html_counterexample :
  (PiiCheck.detect_and_mask_pii (U := ascii_only)
     (of_string "<b>123456</b>")).1 = true
  /\ frames
       (emitted
          (generate_response_stream (U := ascii_only) (J := two_texts) online
             (of_string "<b>123456</b>") (JList [])
             (PiiCheck.detect_and_mask_pii (U := ascii_only)
                (of_string "<b>123456</b>")).1
             (PiiCheck.detect_and_mask_pii (U := ascii_only)
                (of_string "<b>123456</b>")).2))
     = [error_delta html_refusal; done_frame]
  /\ [error_delta html_refusal; done_frame]
     <> [error_delta privacy_refusal; done_frame].
Proof.
  split; [vm_compute; reflexivity |].
  split; [vm_compute; reflexivity |].
  intros H. vm_compute in H. discriminate H.
Qed.

(** The failing input of C7: one turn of history, the summarizer call
    raises. *)
Lemma summarizer_failure_fails_request_witness :
  generate_response_stream (U := ascii_only) (J := two_texts) summarizer_down
    (of_string "Where is the clinic?") one_turn false
    (of_string "Where is the clinic?")
  = ([SummarizerCall one_turn; Yield (error_delta unavailable);
      Yield done_frame], inr tt).
Proof.
  apply (summarizer_failure_fails_request (U := ascii_only) (J := two_texts)
           summarizer_down (of_string "Where is the clinic?")
           (of_string "Where is the clinic?")).
  - vm_compute; reflexivity.
  - left. eexists. reflexivity.
Defined.

(** The same request with the summarizer up reaches the Completion
    Service, with the summary in place of the history. *)
Example summarizer_up_reaches_completion :
  completion_calls
    (emitted
       (generate_response_stream (U := ascii_only) (J := two_texts) online
          (of_string "Where is the clinic?") one_turn false
          (of_string "Where is the clinic?")))
  = [(of_string "Where is the clinic?",
      summary_turn (of_string "They asked about clinics."))].
Proof. vm_compute; reflexivity. Qed.

(** Two upserts of the sample page on an empty store. *)
Lemma upsert_twice_one_document_witness :
  count_documents (url_hash page_url)
    (upsert_text_content all_ok (of_string "second text") page_url
       (upsert_text_content all_ok (of_string "first text") page_url
          empty_store).1).1
  = 1%nat.
Proof.
  refine (proj1 (proj2 (proj2
            (upsert_twice_one_document page_url (of_string "first text")
               (of_string "second text") empty_store _ _ _)))).
  - discriminate.
  - discriminate.
  - exact (Nat.le_0_l 1).
Defined.

(** C3 as stated fails: the consumer processes the same upsert task
    twice for a page that yields no text; it acks both times and the
    store, empty at first, holds no document for the URL. *)
Lemma blank_page_upsert_counterexample :
  (message_processing_callback (of_string "https://nation.example")
     blank_page no_media all_ok (Some upsert_task) empty_store).2
  = ([Ack], inr tt)
  /\ (message_processing_callback (of_string "https://nation.example")
        blank_page no_media all_ok (Some upsert_task)
        (message_processing_callback (of_string "https://nation.example")
           blank_page no_media all_ok (Some upsert_task) empty_store).1)
     = (empty_store, ([Ack], inr tt))
  /\ count_documents (url_hash page_url) empty_store = 0%nat
  /\ count_documents (url_hash page_url)
       (upsert_text_content all_ok [] page_url
          (upsert_text_content all_ok [] page_url empty_store).1).1
     = 0%nat.
Proof. repeat split. Qed.

(** Where [rag.delete_file] fails on the retry, the failure is swallowed
    and the upsert goes on: two documents of the same hash. *)
Example swallowed_delete_failure_duplicates :
  count_documents (url_hash page_url)
    (upsert_text_content delete_file_down (of_string "second text") page_url
       (upsert_text_content all_ok (of_string "first text") page_url
          empty_store).1).1
  = 2%nat.
Proof. vm_compute; reflexivity. Qed.

(** The same task for a page with text: one document, the task acked. *)
Example page_with_text_upserted :
  (message_processing_callback (of_string "https://nation.example")
     some_page no_media all_ok (Some upsert_task) empty_store).2
  = ([Ack], inr tt)
  /\ List.map display_name
       (files (message_processing_callback (of_string "https://nation.example")
                 some_page no_media all_ok (Some upsert_task) empty_store).1)
     = [url_hash page_url ++ of_string "|https%3A%2F%2Fnation.example%2Fpage.txt"].
Proof. split; vm_compute; reflexivity. Qed.

(** Upsert then delete of the sample page on an empty store. *)
Lemma upsert_then_delete_leaves_nothing_witness :
  count_documents (url_hash page_url)
    (delete_document_by_url all_ok page_url
       (upsert_text_content all_ok (of_string "first text") page_url
          empty_store).1).1
  = 0%nat.
Proof.
  refine (proj1 (proj1
            (upsert_then_delete_leaves_nothing page_url (of_string "first text")
               [] empty_store _ _))).
  - discriminate.
  - exact (Nat.le_0_l 1).
Defined.

(** A PDF upsert of the sample page. *)
Lemma blobs_named_alike_witness :
  bucket (upsert_pdf_with_llm_parser all_ok (of_string "%PDF-1.7") page_url
            empty_store).1
  !! (url_hash page_url ++ of_string "|" ++ Sha256.url_encode page_url
      ++ of_string ".txt")
  = Some (Blob (of_string "%PDF-1.7") (of_string "application/pdf")).
Proof.
  apply (proj1 (proj2 (blobs_named_alike page_url empty_store))).
  discriminate.
Defined.

(** C9 as stated fails: the blob of a PDF upsert, stored with the PDF
    content type, has a name that ends in [.txt]. *)
Lemma pdf_blob_keeps_txt_counterexample :
  exists name b,
    bucket (upsert_pdf_with_llm_parser all_ok (of_string "%PDF-1.7") page_url
              empty_store).1 !! name = Some b
    /\ content_type b = of_string "application/pdf"
    /\ endswith name (of_string ".txt") = true.
Proof.
  eexists _, _.
  split; [apply upsert_pdf_blob; discriminate |]. split; [reflexivity |].
  unfold _create_safe_gcs_blob_name. rewrite !app_assoc. apply endswith_app.
Qed.

(** The constants, and the known digest of ["abc"]. *)
Example sha256_constants :
  length Sha256.K = 64%nat
  /\ hd 0 Sha256.K = 0x428a2f98 /\ last Sha256.K = Some 0xc67178f2
  /\ hd 0 Sha256.H0 = 0x6a09e667 /\ last Sha256.H0 = Some 0x5be0cd19.
Proof. vm_compute. repeat split. Qed.

Example sha256_abc :
  Sha256.hexdigest (Sha256.utf8 (of_string "abc"))
  = of_string "ba7816bf8f01cfea414140de5dae2223b00361a396177a9cb410ff61f20015ad".
Proof. vm_compute; reflexivity. Qed.

End Examples.

(** * Further properties of the code *)

(** ** The webhook and the consumer together *)

Section Pipeline.
Variable URL_PREFIXES_EMBEDDING : pystr.

Lemma parse_prefixes_nonempty (p : pystr) :
  In p (parse_prefixes URL_PREFIXES_EMBEDDING) -> p <> [].
Proof.
  unfold parse_prefixes. rewrite filter_In. intros [_ Hne] ->.
  by rewrite bool_decide_true in Hne.
Qed.

Lemma startswith_nonempty (s p : pystr) :
  startswith s p = true -> p <> [] -> s <> [].
Proof. intros Hs Hp ->. by destruct p. Qed.

Lemma authorized_nonempty (url : pystr) :
  startswith_any url (parse_prefixes URL_PREFIXES_EMBEDDING) = true ->
  url <> [] /\ parse_prefixes URL_PREFIXES_EMBEDDING <> [].
Proof.
  unfold startswith_any. rewrite existsb_exists. intros (p & Hin & Hs). split.
  - eapply startswith_nonempty; [done |]. by apply parse_prefixes_nonempty.
  - intros Hnil. by rewrite Hnil in Hin.
Qed.

(** The webhook answers 202 only when it has handed exactly one task to
    the publisher and [future.result()] has returned: the action of the
    type, the URL read from the field of that type ([urls.en-us] for a
    content type, [mediaUrl] for a media one), which starts with an
    allowed prefix, and the type for an upsert only.  It hands over
    nothing when it answers 400 or 403 or raises.  When it answers 500
    the request had passed every check, and the task has been handed
    over exactly if [publisher.publish] returned and it was
    [future.result()] that raised. *)
Theorem webhook_hands_over_one_task (publish_ok result_ok : json -> bool)
  (query_data : json) :
  let r := update_embedding URL_PREFIXES_EMBEDDING publish_ok result_ok
             query_data in
  match r.2 with
  | inr Accepted =>
      exists kv type_name action url,
        query_data = JObj kv
        /\ assoc (of_string "type") kv = Some (JStr type_name)
        /\ action_of_type (JStr type_name) = Some action
        /\ final_url_of query_data type_name = Some (JStr url)
        /\ startswith_any url (parse_prefixes URL_PREFIXES_EMBEDDING) = true
        /\ let task :=
             JObj ([(of_string "action", JStr action);
                    (of_string "url", JStr url)]
                   ++ (if Py.eqb action (of_string "upsert")
                       then [(of_string "type", JStr type_name)]
                       else [])) in
           emitted r = [task]
           /\ publish_ok task = true /\ result_ok task = true
  | inr PublishFailed =>
      exists kv type_name action url,
        query_data = JObj kv
        /\ assoc (of_string "type") kv = Some (JStr type_name)
        /\ action_of_type (JStr type_name) = Some action
        /\ final_url_of query_data type_name = Some (JStr url)
        /\ startswith_any url (parse_prefixes URL_PREFIXES_EMBEDDING) = true
        /\ let task :=
             JObj ([(of_string "action", JStr action);
                    (of_string "url", JStr url)]
                   ++ (if Py.eqb action (of_string "upsert")
                       then [(of_string "type", JStr type_name)]
                       else [])) in
           if publish_ok task
           then emitted r = [task] /\ result_ok task = false
           else emitted r = []
  | _ => emitted r = []
  end.
Proof.
  unfold update_embedding.
  destruct (negb (truthy query_data)); [done |].
  destruct query_data as [ |b|z|s|l|kv]; try done.
  destruct (assoc (of_string "type") kv) as [data_type |] eqn:Htype; [| done].
  cbn [default from_option id].
  destruct (negb (truthy data_type)); [done |].
  destruct (action_of_type data_type) as [action |] eqn:Hact; [| done].
  destruct data_type as [ |b|z|type_name|l|kv']; try done.
  destruct (final_url_of _ _) as [final_url |] eqn:Hurl; [| done].
  destruct (bool_decide (parse_prefixes URL_PREFIXES_EMBEDDING = [])); [done |].
  destruct final_url as [ |b|z|url|l|kv']; try done.
  destruct (negb (startswith_any url _)) eqn:Hallowed; [done |].
  apply negb_false_iff in Hallowed. cbn [app].
  destruct (publish_ok _) eqn:Hpub.
  - destruct (result_ok _) eqn:Hres; cbn [bind emit ret emitted fst snd app];
      exists kv, type_name, action, url; repeat (split; [done |]);
      cbv zeta; rewrite ?Hpub; by repeat split.
  - cbn [ret emitted fst snd].
    exists kv, type_name, action, url. repeat (split; [done |]).
    cbv zeta. by rewrite Hpub.
Qed.

Variable scrape_website : pystr -> option pystr.
Variable fetch_media : pystr -> exn + list N.
Variable fl : faults.

(** Past its checks the consumer acks what [process] returns from and
    nacks what it raises on. *)
Lemma authorized_callback (data : list (pystr * json)) (url : pystr)
  (s : store) :
  assoc (of_string "url") data = Some (JStr url) ->
  startswith_any url (parse_prefixes URL_PREFIXES_EMBEDDING) = true ->
  message_processing_callback URL_PREFIXES_EMBEDDING scrape_website
    fetch_media fl (Some (JObj data)) s
  = ((process scrape_website fetch_media fl data url s).1,
     ([match (process scrape_website fetch_media fl data url s).2 with
       | inr _ => Ack
       | inl _ => Nack
       end], inr tt)).
Proof.
  intros Hurl Hallowed.
  destruct (authorized_nonempty url Hallowed) as [Hne Hcfg].
  unfold message_processing_callback, ALLOWED_URL_PREFIXES.
  rewrite Hurl. cbn [default from_option id].
  destruct url as [| c url]; [done |].
  change (negb (truthy (JStr (c :: url)))) with false. cbv iota.
  rewrite bool_decide_false by done. rewrite Hallowed. cbn [negb].
  by destruct (process _ _ _ _ _ _) as [s' [e | []]].
Qed.

(** Every task the webhook publishes gets past the consumer's own
    checks under the same configuration: it is neither discarded nor
    nacked for the allow-list, it is processed, and it is acked if the
    processing returns and nacked if it raises. *)
Theorem published_task_is_processed (publish_ok result_ok : json -> bool)
  (query_data task : json) (s : store) :
  In task (emitted (update_embedding URL_PREFIXES_EMBEDDING publish_ok
                      result_ok query_data)) ->
  exists data url,
    task = JObj data
    /\ assoc (of_string "url") data = Some (JStr url)
    /\ message_processing_callback URL_PREFIXES_EMBEDDING scrape_website
         fetch_media fl (Some task) s
       = ((process scrape_website fetch_media fl data url s).1,
          ([match (process scrape_website fetch_media fl data url s).2 with
            | inr _ => Ack
            | inl _ => Nack
            end], inr tt)).
Proof.
  intros Hin.
  destruct (handed_task _ _ _ _ _ Hin)
    as (kv & type_name & action & url & _ & _ & _ & _ & Hallowed & -> & _).
  eexists _, url. split; [reflexivity |]. split; [reflexivity |].
  by apply authorized_callback.
Qed.

(** The consumer settles every message whose payload is a JSON object
    with exactly one verdict and returns; for any other payload (no
    JSON, or JSON that is no object) it calls neither [ack] nor [nack]:
    its [except] handler fails on [data.get] and the exception leaves
    the callback, the store untouched. *)
Theorem consumer_verdicts (message_data : option json) (s : store) :
  let r := message_processing_callback URL_PREFIXES_EMBEDDING scrape_website
             fetch_media fl message_data s in
  match message_data with
  | Some (JObj _) => exists verdict, r.2 = ([verdict], inr tt)
  | _ => r.1 = s /\ emitted r.2 = [] /\ exists e, r.2.2 = inl e
  end.
Proof.
  unfold message_processing_callback.
  destruct message_data as [[ |b|z|t|l|data] |]; try (by repeat split; eexists).
  destruct (negb (truthy _)); [by eexists |].
  destruct (bool_decide _); [by eexists |].
  destruct (default JNull _) as [ |b|z|url|l|kv]; try by eexists.
  destruct (negb (startswith_any url _)); [by eexists |].
  destruct (process _ _ _ _ _ _) as [s' [e | []]]; by eexists.
Qed.

(** The consumer changes the store for no message but one whose url is a
    string that starts with an allowed prefix. *)
Theorem consumer_touches_only_allowed (message_data : option json) (s : store) :
  (message_processing_callback URL_PREFIXES_EMBEDDING scrape_website
     fetch_media fl message_data s).1 <> s ->
  exists data url,
    message_data = Some (JObj data)
    /\ assoc (of_string "url") data = Some (JStr url)
    /\ startswith_any url (parse_prefixes URL_PREFIXES_EMBEDDING) = true.
Proof.
  unfold message_processing_callback, ALLOWED_URL_PREFIXES.
  destruct message_data as [[ |b|z|t|l|data] |]; try done.
  destruct (assoc (of_string "url") data) as [url |] eqn:Hurl; [| done].
  cbn [default from_option id].
  destruct (negb (truthy url)); [done |].
  destruct (bool_decide _); [done |].
  destruct url as [ |b|z|url|l|kv]; try done.
  destruct (startswith_any url _) eqn:Hallowed; [| done].
  intros _. by exists data, url.
Qed.

(** A delete task for an allowed URL that encodes is always acked,
    whatever store call fails: [_delete_existing_rag_file] and
    [_delete_from_gcs] swallow every failure.  The task is acked with the
    corpus as it was when the listing or the file deletion fails, and
    with the whole store as it was when listing and bucket deletion both
    fail: the document stays and the task is not delivered again. *)
Theorem delete_task_always_acked (data : list (pystr * json)) (url : pystr)
  (s : store) :
  encodable url ->
  assoc (of_string "url") data = Some (JStr url) ->
  assoc (of_string "action") data = Some (jstr "delete") ->
  startswith_any url (parse_prefixes URL_PREFIXES_EMBEDDING) = true ->
  let r := message_processing_callback URL_PREFIXES_EMBEDDING scrape_website
             fetch_media fl (Some (JObj data)) s in
  r.2 = ([Ack], inr tt)
  /\ (list_files_fails fl = true \/ delete_file_fails fl = true ->
      files r.1 = files s)
  /\ (list_files_fails fl = true -> gcs_delete_fails fl = true -> r.1 = s).
Proof.
  intros _ Hurl Haction Hallowed r. subst r.
  rewrite (authorized_callback data url s Hurl Hallowed).
  unfold process. rewrite Haction. cbn [default from_option id].
  change (in_strs (jstr "delete") [of_string "delete"]) with true. cbv iota.
  destruct (authorized_nonempty url Hallowed) as [Hne _].
  destruct url as [| c url]; [done |].
  unfold delete_document_by_url. cbn [fst snd]. split; [done |]. split.
  - intros Hfails. unfold _delete_from_gcs, _delete_existing_rag_file.
    assert (Hfiles :
      files (if list_files_fails fl then s
             else if existsb (hash_matches (url_hash (c :: url))) (files s)
                     && delete_file_fails fl then s
             else Store (delete_first (url_hash (c :: url)) (files s))
                    (bucket s) (next_name s))
      = files s).
    { destruct (list_files_fails fl); [done |].
      destruct Hfails as [Hl | Hd]; [done |]. rewrite Hd, andb_true_r.
      destruct (existsb _ (files s)) eqn:Hex; [done |]. cbn [files].
      apply delete_first_none. exact Hex. }
    by destruct (gcs_delete_fails fl).
  - intros Hlist Hgcs. unfold _delete_from_gcs, _delete_existing_rag_file.
    by rewrite Hlist, Hgcs.
Qed.

(** The two kinds of upsert treat a failed fetch differently.  A media
    file that cannot be fetched raises: the task is nacked, to be
    delivered again.  A page that cannot be fetched or parsed is only
    logged by [upsert_scraped_url]: the task is acked.  The store is
    left as it was in both cases. *)
Theorem failed_fetch_nacks_media_only (data : list (pystr * json)) (url : pystr)
  (s : store) :
  assoc (of_string "url") data = Some (JStr url) ->
  startswith_any url (parse_prefixes URL_PREFIXES_EMBEDDING) = true ->
  default (jstr "upsert") (assoc (of_string "action") data) = jstr "upsert" ->
  let data_type := default (jstr "content") (assoc (of_string "type") data) in
  let r := message_processing_callback URL_PREFIXES_EMBEDDING scrape_website
             fetch_media fl (Some (JObj data)) s in
  (data_type = jstr "media" ->
   (exists e, fetch_media url = inl e) -> r = (s, ([Nack], inr tt)))
  /\ (data_type <> jstr "media" ->
      scrape_website url = None -> r = (s, ([Ack], inr tt))).
Proof.
  intros Hurl Hallowed Haction data_type r. subst r.
  rewrite (authorized_callback data url s Hurl Hallowed).
  unfold process. rewrite Haction. fold data_type.
  change (in_strs (jstr "upsert") [of_string "delete"]) with false.
  change (in_strs (jstr "upsert") [of_string "upsert"]) with true. cbv iota.
  split.
  - intros -> [e He].
    change (in_strs (jstr "media") [of_string "media"]) with true. cbv iota.
    by rewrite He.
  - intros Hother Hscrape.
    replace (in_strs data_type [of_string "media"]) with false.
    + unfold upsert_scraped_url. by rewrite Hscrape.
    + symmetry. destruct data_type as [ |b|z|t|l|kv]; try done.
      unfold in_strs, Py.eqb. cbn [existsb]. rewrite orb_false_r.
      apply bool_decide_eq_false. intros ->. by apply Hother.
Qed.

End Pipeline.

(** ** The store operations, one URL among others and under faults *)

Section StoreMore.

Lemma delete_first_other (h h' : pystr) (l : list rag_file) :
  h <> h' ->
  List.filter (hash_matches h) (delete_first h' l)
  = List.filter (hash_matches h) l.
Proof.
  intros Hne. induction l as [| file l IH]; simpl; [done |].
  destruct (hash_matches h' file) eqn:Hm'; simpl; [| by rewrite IH].
  destruct (hash_matches h file) eqn:Hm; [| done].
  unfold hash_matches, Py.eqb in *.
  apply bool_decide_eq_true in Hm, Hm'. congruence.
Qed.

Lemma delete_first_absent (h : pystr) (l : list rag_file) :
  List.filter (hash_matches h) l = [] -> delete_first h l = l.
Proof.
  induction l as [| file l IH]; simpl; [done |].
  destruct (hash_matches h file); [done |]. intros Hnil. by rewrite IH.
Qed.

Lemma delete_first_In (h : pystr) (file : rag_file) (l : list rag_file) :
  In file (delete_first h l) -> In file l.
Proof.
  induction l as [| file' l IH]; simpl; [done |].
  destruct (hash_matches h file'); [by right |].
  intros [-> | Hin]; [by left | right; by apply IH].
Qed.

Lemma store_eta (s : store) : Store (files s) (bucket s) (next_name s) = s.
Proof. by destruct s. Qed.

Lemma delete_existing_other (fl : faults) (h h' : pystr) (s : store) :
  h <> h' ->
  documents_for h (_delete_existing_rag_file fl h' s) = documents_for h s
  /\ bucket (_delete_existing_rag_file fl h' s) = bucket s.
Proof.
  intros Hne. unfold _delete_existing_rag_file, documents_for.
  destruct (list_files_fails fl); [done |].
  destruct (_ && _); [done |]. simpl. by rewrite delete_first_other.
Qed.

Lemma imported_other (h : pystr) (url : pystr) (l : list rag_file) (n : N) :
  h <> url_hash url ->
  List.filter (hash_matches h)
    (l ++ [RagFile n (_create_safe_gcs_blob_name (url_hash url) url)])
  = List.filter (hash_matches h) l.
Proof.
  intros Hne. rewrite List.filter_app. cbn [List.filter].
  replace (hash_matches h _) with false; [by rewrite app_nil_r |].
  symmetry. unfold hash_matches. cbn [display_name]. rewrite blob_name_head.
  apply bool_decide_eq_false. congruence.
Qed.

Lemma upsert_other (fl : faults) (data : list N) (ctype url h blob_name : pystr)
  (s : store) :
  h <> url_hash url ->
  blob_name <> _create_safe_gcs_blob_name (url_hash url) url ->
  let s0 := _delete_existing_rag_file fl (url_hash url) s in
  let r := match _upload_to_gcs fl data
                   (_create_safe_gcs_blob_name (url_hash url) url) ctype s0 with
           | (s1, inl e) => (s1, inl e)
           | (s1, inr gcs_uri) => import_files fl gcs_uri s1
           end in
  documents_for h r.1 = documents_for h s
  /\ bucket r.1 !! blob_name = bucket s !! blob_name.
Proof.
  intros Hh Hname s0 r.
  destruct (delete_existing_other fl h (url_hash url) s Hh) as [Hdocs Hbucket].
  fold s0 in Hdocs, Hbucket. subst r.
  unfold _upload_to_gcs, import_files.
  destruct (upload_fails fl); cbn [fst]; [by rewrite Hbucket |].
  destruct (import_fails fl); cbn [fst bucket files].
  - unfold documents_for in *. cbn [files].
    by rewrite lookup_insert_ne, Hbucket.
  - unfold documents_for in *. cbn [files].
    by rewrite imported_other, lookup_insert_ne, Hbucket.
Qed.

(** An operation on one URL, whether it returns or raises and whatever
    store call fails, leaves the documents of every other hash and every
    blob of another name as they were. *)
Theorem operations_leave_other_urls (fl : faults) (text url : pystr)
  (pdf : list N) (h blob_name : pystr) (s s' : store) :
  h <> url_hash url ->
  blob_name <> _create_safe_gcs_blob_name (url_hash url) url ->
  In s' [(upsert_text_content fl text url s).1;
         (upsert_pdf_with_llm_parser fl pdf url s).1;
         (delete_document_by_url fl url s).1] ->
  documents_for h s' = documents_for h s
  /\ bucket s' !! blob_name = bucket s !! blob_name.
Proof.
  intros Hh Hname [<- | [<- | [<- | []]]].
  - destruct text as [| c text]; [done |].
    by apply (upsert_other fl (Sha256.utf8 (c :: text))).
  - destruct pdf as [| b pdf]; [done |].
    by apply (upsert_other fl (b :: pdf)).
  - destruct url as [| c url]; [done |].
    unfold delete_document_by_url. cbn [fst].
    destruct (delete_existing_other fl h _ s Hh) as [Hdocs Hbucket].
    unfold _delete_from_gcs. destruct (gcs_delete_fails fl); [by rewrite Hbucket |].
    unfold documents_for in *. cbn [files bucket].
    by rewrite lookup_delete_ne, Hbucket.
Qed.

Lemma no_match_left (h : pystr) (l : list rag_file) :
  (length (List.filter (hash_matches h) l) <= 1)%nat ->
  existsb (hash_matches h) (delete_first h l) = false.
Proof.
  intros Hle. apply not_true_is_false. intros Hex.
  apply existsb_exists in Hex as (file & Hin & Hm).
  pose proof (count_delete_first h l) as Hcount.
  assert (Hfil : In file (List.filter (hash_matches h) (delete_first h l)))
    by by apply filter_In.
  destruct (List.filter _ (delete_first h l)); [done |]. simpl in Hcount. lia.
Qed.

Lemma delete_existing_twice (fl : faults) (h : pystr) (s : store) :
  (length (List.filter (hash_matches h) (files s)) <= 1)%nat ->
  _delete_existing_rag_file fl h (_delete_existing_rag_file fl h s)
  = _delete_existing_rag_file fl h s.
Proof.
  intros Hle. unfold _delete_existing_rag_file.
  destruct (list_files_fails fl); [done |].
  destruct (existsb (hash_matches h) (files s) && delete_file_fails fl) eqn:Hc.
  - by rewrite Hc.
  - cbn [files bucket next_name].
    rewrite (no_match_left h (files s) Hle). cbn [andb].
    by rewrite (delete_first_none h _ (no_match_left h (files s) Hle)).
Qed.

(** Deleting is idempotent.  For a URL that encodes and a store that
    holds at most one document of its hash, a second delete of the same
    URL, the same store calls failing as in the first, returns and
    changes nothing more; and with the store services answering, the
    delete of a URL the store holds neither a document nor a blob of
    returns and leaves the store as it is. *)
Theorem delete_is_idempotent (fl : faults) (url : pystr) (s : store) :
  encodable url ->
  (count_documents (url_hash url) s <= 1)%nat ->
  let once := (delete_document_by_url fl url s).1 in
  delete_document_by_url fl url once = (once, inr tt)
  /\ (count_documents (url_hash url) s = 0%nat ->
      bucket s !! _create_safe_gcs_blob_name (url_hash url) url = None ->
      delete_document_by_url all_ok url s = (s, inr tt)).
Proof.
  intros _ Hle once. subst once.
  destruct url as [| c url]; [done |]. split.
  - unfold delete_document_by_url. cbn [fst]. f_equal.
    set (h := url_hash (c :: url)) in *.
    set (name := _create_safe_gcs_blob_name h (c :: url)).
    unfold _delete_from_gcs. destruct (gcs_delete_fails fl).
    + by rewrite delete_existing_twice.
    + assert (Hsame : forall s' b,
        _delete_existing_rag_file fl h (Store (files s') b (next_name s'))
        = Store (files (_delete_existing_rag_file fl h s')) b
            (next_name (_delete_existing_rag_file fl h s'))).
      { intros s' b. unfold _delete_existing_rag_file. cbn [files].
        destruct (list_files_fails fl); [done |].
        by destruct (_ && _). }
      rewrite Hsame. cbn [files bucket next_name].
      rewrite delete_existing_twice by done. by rewrite delete_delete_eq.
  - intros Hzero Hnone. rewrite delete_ok. cbn [fst].
    rewrite delete_first_absent, delete_id; [| done |].
    + by rewrite store_eta.
    + unfold count_documents, documents_for in Hzero.
      by destruct (List.filter _ (files s)).
Qed.

(** An upsert is not atomic.  With a text to store, the deletion calls
    answering and at most one document of the hash in the store, it
    returns exactly when upload and import both succeed, and then leaves
    the one new document and its blob; when it raises, the old document
    is already gone and none has replaced it, and if it was the upload
    that failed the bucket is as before. *)
Theorem upsert_outcome (fl : faults) (text url : pystr) (s : store) :
  text <> [] ->
  list_files_fails fl = false ->
  delete_file_fails fl = false ->
  (count_documents (url_hash url) s <= 1)%nat ->
  let r := upsert_text_content fl text url s in
  let name := _create_safe_gcs_blob_name (url_hash url) url in
  match r.2 with
  | inr _ =>
      upload_fails fl = false /\ import_fails fl = false
      /\ documents_for (url_hash url) r.1 = [RagFile (next_name s) name]
      /\ bucket r.1 !! name
         = Some (Blob (Sha256.utf8 text) (of_string "text/plain; charset=utf-8"))
  | inl _ =>
      (upload_fails fl = true \/ import_fails fl = true)
      /\ count_documents (url_hash url) r.1 = 0%nat
      /\ (upload_fails fl = true -> bucket r.1 = bucket s)
  end.
Proof.
  intros Hne Hlist Hdelete Hle r name. subst r.
  destruct text as [| c text]; [done |].
  unfold upsert_text_content, _delete_existing_rag_file, _upload_to_gcs,
    import_files.
  rewrite Hlist, Hdelete, andb_false_r. fold name.
  assert (Hgone : length (List.filter (hash_matches (url_hash url))
                            (delete_first (url_hash url) (files s))) = 0%nat).
  { rewrite count_delete_first.
    unfold count_documents, documents_for in Hle. lia. }
  destruct (upload_fails fl); cbn [fst snd files bucket next_name].
  { split; [by left |]. by split. }
  destruct (import_fails fl); cbn [fst snd files bucket next_name].
  { split; [by right |]. by split. }
  split; [done |]. split; [done |]. split.
  - unfold documents_for. cbn [files]. by apply documents_after_upsert.
  - apply lookup_insert_eq.
Qed.

Lemma no_match_after_delete (h : pystr) (l : list rag_file) (file : rag_file) :
  (length (List.filter (hash_matches h) l) <= 1)%nat ->
  In file (delete_first h l) -> hash_matches h file = false.
Proof.
  intros Hle Hin. destruct (hash_matches h file) eqn:Hm; [| done].
  pose proof (count_delete_first h l) as Hcount.
  assert (Hfil : In file (List.filter (hash_matches h) (delete_first h l)))
    by by apply filter_In.
  destruct (List.filter _ (delete_first h l)); [done |]. simpl in Hcount. lia.
Qed.

(** While the store services answer, every document of the corpus is
    labelled [sha256(url)|quote(url).txt] for some URL and has its source
    blob in the bucket under that very name: no operation removes a blob
    and leaves its document. *)
Theorem documents_have_blobs (s : store) :
  reachable s ->
  Forall (fun file =>
            is_Some (bucket s !! display_name file)
            /\ exists url,
                 display_name file
                 = _create_safe_gcs_blob_name (url_hash url) url)
    (files s).
Proof.
  assert (Hupsert : forall url data ctype s,
    Forall (fun file =>
              is_Some (bucket s !! display_name file)
              /\ exists url,
                   display_name file
                   = _create_safe_gcs_blob_name (url_hash url) url) (files s) ->
    Forall (fun file =>
              is_Some (<[_create_safe_gcs_blob_name (url_hash url) url
                         := Blob data ctype]> (bucket s) !! display_name file)
              /\ exists url,
                   display_name file
                   = _create_safe_gcs_blob_name (url_hash url) url)
      (delete_first (url_hash url) (files s)
       ++ [RagFile (next_name s) (_create_safe_gcs_blob_name (url_hash url) url)])).
  { intros url data ctype s0 IH. apply Forall_app. split.
    - apply List.Forall_forall. intros file Hin.
      apply delete_first_In in Hin.
      rewrite List.Forall_forall in IH. destruct (IH file Hin) as [Hsome Hurl].
      split; [| done]. rewrite lookup_insert_is_Some.
      destruct (decide (_create_safe_gcs_blob_name (url_hash url) url
                        = display_name file)); [by left | by right].
    - constructor; [| done]. cbn [display_name]. split; [| by exists url].
      rewrite lookup_insert_eq. by eexists. }
  intros Hreach.
  pose proof (reachable_at_most_one s Hreach) as Hone. revert Hone.
  induction Hreach as [| text url s Hreach IH | pdf url s Hreach IH
                       | url s Hreach IH]; intros Hone.
  - constructor.
  - pose proof (IH (reachable_at_most_one s Hreach)) as IH'.
    destruct text as [| c text]; [done |].
    rewrite upsert_text_ok. cbn [fst files bucket]. by apply Hupsert.
  - pose proof (IH (reachable_at_most_one s Hreach)) as IH'.
    destruct pdf as [| b pdf]; [done |].
    rewrite upsert_pdf_ok. cbn [fst files bucket]. by apply Hupsert.
  - pose proof (reachable_at_most_one s Hreach) as Hbefore.
    pose proof (IH Hbefore) as IH'.
    destruct url as [| c url]; [done |].
    rewrite delete_ok. cbn [fst files bucket].
    apply List.Forall_forall. intros file Hin.
    pose proof (no_match_after_delete _ _ _ (Hbefore (url_hash (c :: url))) Hin)
      as Hno.
    apply delete_first_In in Hin.
    rewrite List.Forall_forall in IH'. destruct (IH' file Hin) as [Hsome Hurl].
    split; [| done]. rewrite lookup_delete_ne; [done |].
    intros Heq. unfold hash_matches in Hno. rewrite <- Heq in Hno.
    rewrite blob_name_head in Hno.
    by apply bool_decide_eq_false in Hno.
Qed.

End StoreMore.

(** ** What the patterns can and cannot match *)

Section Patterns.
Context `{U : UnicodeData}.

(** *** One character class *)

Lemma rmatch_class (neg : bool) (items : list citem) (c : ctx) :
  rmatch ctx (Set_ neg items) Some c
  = match rest c with
    | x :: t =>
        if xorb neg (existsb (in_item x) items)
        then Some (Ctx (Some x) t (cap c)) else None
    | [] => None
    end.
Proof. reflexivity. Qed.

Lemma sub_from_class (neg : bool) (items : list citem) (fuel : nat) (c : ctx) :
  (length (rest c) < fuel)%nat ->
  sub_from fuel (Set_ neg items) (fun _ => []) c
  = List.filter (fun x => negb (xorb neg (existsb (in_item x) items))) (rest c).
Proof.
  revert c. induction fuel as [| fuel IH]; intros [pr s cp] Hlt; [simpl in Hlt; lia |].
  cbn [sub_from]. rewrite rmatch_class. cbn [rest prev cap].
  destruct s as [| x t]; [done |]. cbn [List.filter].
  destruct (xorb neg (existsb (in_item x) items)); cbn [negb rest].
  - rewrite (proj2 (Nat.ltb_lt _ _)) by (simpl; lia).
    rewrite IH by (simpl in *; lia). done.
  - rewrite IH by (simpl in *; lia). done.
Qed.

Lemma search_at_class (neg : bool) (items : list citem) (n : nat) (c : ctx) :
  (length (rest c) <= n)%nat ->
  is_Some (search_at (Set_ neg items) c n)
  <-> existsb (fun x => xorb neg (existsb (in_item x) items)) (rest c) = true.
Proof.
  revert c. induction n as [| n IH]; intros [pr s cp] Hle.
  - destruct s as [| x t]; [| simpl in Hle; lia]. simpl. split; [| done].
    by intros [? ?].
  - cbn [search_at]. rewrite rmatch_class. cbn [rest prev cap].
    destruct s as [| x t]; [simpl; split; [by intros [? ?] | done] |].
    cbn [existsb]. destruct (xorb neg (existsb (in_item x) items)).
    + split; [done | by eexists].
    + rewrite IH by (simpl in *; lia). done.
Qed.

Lemma search_class (neg : bool) (items : list citem) (s : pystr) :
  search (Set_ neg items) s
  = existsb (fun x => xorb neg (existsb (in_item x) items)) s.
Proof.
  unfold search.
  pose proof (search_at_class neg items (length s) (start s) (le_n _)) as Hiff.
  cbn [start rest] in Hiff.
  destruct (existsb _ s).
  - apply bool_decide_eq_true. by apply Hiff.
  - apply bool_decide_eq_false. intros Hsome. by apply Hiff in Hsome.
Qed.

(** *** Text free of the characters a pattern needs *)

Variable p : N -> bool.

Local Abbreviation free c := (Forall (fun x => p x = false) (rest c)).

(** The matcher only moves forward: from a position in text free of [p]
    it reaches only such positions. *)
Lemma rmatch_free (r : re) :
  forall (R : Type) (k : ctx -> option R) (c : ctx),
    (forall c', free c' -> k c' = None) ->
    free c -> rmatch R r k c = None.
Proof.
  induction r as [| neg items | dotall | r1 IH1 r2 IH2 | r1 IH1 r2 IH2
                  | greedy r1 IH1 | | multiline | | positive r1 IH1 | r1 IH1];
    intros R k c Hk Hc; cbn [rmatch].
  - by apply Hk.
  - destruct (rest c) as [| x t] eqn:Hrest; [done |].
    destruct (xorb _ _); [| done]. apply Hk. cbn [rest].
    by inversion Hc.
  - destruct (rest c) as [| x t] eqn:Hrest; [done |].
    destruct (_ || _); [| done]. apply Hk. cbn [rest].
    by inversion Hc.
  - apply IH1; [| done]. intros c' Hc'. by apply IH2.
  - rewrite IH1 by done. by apply IH2.
  - generalize (length (rest c)) at 1. intros n. revert c Hc.
    destruct greedy; induction n as [| n IHn]; intros c Hc; simpl.
    + by apply Hk.
    + rewrite IH1; [by apply Hk | | done]. intros c' Hc'.
      destruct (_ <? _)%nat; [by apply IHn | done].
    + by rewrite Hk.
    + rewrite Hk by done. apply IH1; [| done]. intros c' Hc'.
      destruct (_ <? _)%nat; [by apply IHn | done].
  - destruct (prev c); [done | by apply Hk].
  - destruct (rest c) as [| x t] eqn:Hrest; [apply Hk; by rewrite Hrest |].
    destruct (_ && _); [apply Hk; by rewrite Hrest | done].
  - destruct (at_boundary c); [by apply Hk | done].
  - destruct (rmatch unit r1 _ c), positive; try done; by apply Hk.
  - apply IH1; [| done]. intros c' Hc'. by apply Hk.
Qed.

Variable ok : list citem -> bool.
Hypothesis ok_sound :
  forall items x, ok items = true -> existsb (in_item x) items = true -> p x = true.

Lemma rmatch_consumes (r : re) :
  consumes ok r = true ->
  forall (R : Type) (k : ctx -> option R) (c : ctx),
    free c -> rmatch R r k c = None.
Proof using All.
  induction r as [| neg items | dotall | r1 IH1 r2 IH2 | r1 IH1 r2 IH2
                  | greedy r1 IH1 | | multiline | | positive r1 IH1 | r1 IH1];
    cbn [consumes]; try done; intros Hneeds R k c Hc; cbn [rmatch].
  - destruct neg; [done |].
    destruct (rest c) as [| x t] eqn:Hrest; [done |]. cbn [xorb].
    destruct (existsb (in_item x) items) eqn:Hin; [| done].
    inversion Hc as [| ? ? Hx _]; subst.
    by rewrite (ok_sound items x Hneeds Hin) in Hx.
  - apply orb_true_iff in Hneeds as [H1 | H2]; [by apply IH1 |].
    apply rmatch_free; [| done]. intros c' Hc'. by apply IH2.
  - apply andb_true_iff in Hneeds as [H1 H2].
    rewrite IH1 by done. by apply IH2.
  - by apply IH1.
Qed.

Lemma search_consumes (r : re) (s : pystr) :
  consumes ok r = true ->
  Forall (fun x => p x = false) s -> search r s = false.
Proof using All.
  intros Hneeds Hs. unfold search. apply bool_decide_eq_false.
  assert (Hnone : forall n c, free c -> search_at r c n = None).
  { induction n as [| n IHn]; intros c Hc; cbn [search_at].
    - rewrite rmatch_consumes by done. by destruct (rest c).
    - rewrite rmatch_consumes by done.
      destruct (rest c) as [| x t] eqn:Hrest; [done |].
      apply IHn. cbn [rest]. by inversion Hc. }
  rewrite Hnone by done. by intros [? ?].
Qed.

End Patterns.

(** ** The screens of a message, read as conditions on its characters *)

Section Screens.
Context `{U : UnicodeData} `{J : JsonLib}.

Lemma kept_matches (x : N) :
  negb (xorb true
          (existsb (in_item x)
             [Rg 97 122; Rg 65 90; Rg 48 57; Sp; Ch (c_ "."); Ch (c_ "?");
              Ch (c_ "-")]))
  = kept_by_clean_text x.
Proof.
  unfold kept_by_clean_text, ascii_alnum, ascii_digit, ascii_upper, ascii_lower.
  cbn [existsb in_item xorb].
  destruct (in_range 97 122 x), (in_range 65 90 x), (in_range 48 57 x),
    (isspace x), (x =? c_ "."), (x =? c_ "?"), (x =? c_ "-"); reflexivity.
Qed.

Lemma clean_text_filter (message : pystr) :
  clean_text message = List.filter kept_by_clean_text message.
Proof.
  unfold clean_text, sub, CLEANING_REGEX_SIMPLE, ncls.
  rewrite sub_from_class by (simpl; lia). cbn [start rest].
  apply filter_ext. intros x. apply kept_matches.
Qed.

Lemma filter_idem {X} (f : X -> bool) (l : list X) :
  List.filter f (List.filter f l) = List.filter f l.
Proof.
  induction l as [| x l IH]; simpl; [done |].
  destruct (f x) eqn:Hf; simpl; [by rewrite Hf, IH | done].
Qed.

(** [clean_text] drops every character that is no ASCII letter or
    digit, no white space and none of [.], [?], [-], and keeps the
    others in order; cleaning a cleaned text changes nothing, and the
    result is never longer than the text. *)
Theorem clean_text_keeps_allowed (message : pystr) :
  clean_text message = List.filter kept_by_clean_text message
  /\ clean_text (clean_text message) = clean_text message
  /\ (length (clean_text message) <= length message)%nat.
Proof.
  rewrite !clean_text_filter. split; [done |]. split.
  - apply filter_idem.
  - apply filter_length_le.
Qed.

Lemma startswith_prefix (s q : pystr) :
  startswith s q = true -> exists t, s = q ++ t.
Proof.
  revert s. induction q as [| x q IH]; intros s; [by exists s |].
  destruct s as [| y s]; [done |]. simpl.
  intros [Hxy Hs]%andb_true_iff. apply N.eqb_eq in Hxy as ->.
  destruct (IH s Hs) as [t ->]. by exists t.
Qed.

Lemma contains_In (s q : pystr) (x : N) :
  contains s q = true -> In x q -> In x s.
Proof.
  induction s as [| y s IH]; cbn [contains].
  - rewrite orb_false_r. by destruct q.
  - intros [Hs | Hc]%orb_true_iff Hin.
    + destruct (startswith_prefix (y :: s) q Hs) as [t Ht].
      rewrite Ht. apply in_app_iff. by left.
    + right. by apply IH.
Qed.

(** A configured keyword that holds a character [clean_text] drops (an
    apostrophe, an underscore, a comma, ...) can never be found in the
    normalized message: with only such keywords the scan leaves every
    message but the literal [null] as it is. *)
Theorem stripped_keyword_never_fires (PROMPT_INJECTION_KEYWORDS : list pystr)
  (message : pystr) :
  Forall (fun keyword => existsb (fun x => negb (kept_by_clean_text x)) keyword
                         = true) PROMPT_INJECTION_KEYWORDS ->
  message <> of_string "null" ->
  after_keyword_scan PROMPT_INJECTION_KEYWORDS message = message.
Proof.
  intros Hall Hnull. unfold after_keyword_scan.
  replace (existsb _ PROMPT_INJECTION_KEYWORDS) with false.
  - unfold Py.eqb. by rewrite bool_decide_false.
  - symmetry. apply not_true_is_false. intros Hex.
    apply existsb_exists in Hex as (keyword & Hin & Hcontains).
    rewrite List.Forall_forall in Hall. specialize (Hall keyword Hin).
    apply existsb_exists in Hall as (x & Hx & Hdropped).
    pose proof (contains_In _ _ x Hcontains Hx) as Hcleaned.
    rewrite clean_text_filter in Hcleaned.
    apply filter_In in Hcleaned as [_ Hkept]. by rewrite Hkept in Hdropped.
Qed.

Lemma existsb_pointwise {X} (f g : X -> bool) (l : list X) :
  (forall x, f x = g x) -> existsb f l = existsb g l.
Proof.
  intros Hfg. induction l as [| x l IH]; [done |].
  cbn [existsb]. by rewrite Hfg, IH.
Qed.

Lemma alnum_search (message : pystr) :
  search alnum_pattern message = existsb alnum_or_cherokee message.
Proof.
  unfold alnum_pattern, cls. rewrite search_class.
  apply existsb_pointwise. intros x.
  unfold alnum_or_cherokee, ascii_alnum, ascii_digit, ascii_upper, ascii_lower.
  cbn [existsb in_item xorb].
  destruct (in_range 97 122 x), (in_range 65 90 x), (in_range 48 57 x),
    (in_range 5024 5119 x), (in_range 43888 43967 x); reflexivity.
Qed.

(** The content check in plain terms: a message with an ASCII letter or
    digit or a Cherokee letter passes unchanged, any other message is
    replaced by the invalid-input sentinel. *)
Theorem content_check_by_characters (message : pystr) :
  after_content_check message
  = if existsb alnum_or_cherokee message then message else INVALID_INPUT.
Proof.
  unfold after_content_check. rewrite alnum_search.
  by destruct (existsb _ message).
Qed.

Lemma digit_or_at_sound (items : list citem) (x : N) :
  forallb digit_or_at_item items = true ->
  existsb (in_item x) items = true -> digit_or_at x = true.
Proof.
  intros Hall Hex. apply existsb_exists in Hex as (i & Hin & Hx).
  rewrite forallb_forall in Hall. specialize (Hall i Hin).
  unfold digit_or_at.
  destruct i as [c | lo hi | | |]; simpl in *; try done.
  - apply N.eqb_eq in Hx as ->. rewrite <- orb_assoc, Hall.
    apply orb_true_r.
  - replace (ascii_digit x) with true; [by rewrite orb_true_r |].
    symmetry. unfold ascii_digit, in_range in *.
    apply andb_true_iff in Hall as [Hlo Hhi], Hx as [Hlx Hxh].
    apply N.leb_le in Hlo, Hhi, Hlx, Hxh.
    apply andb_true_iff. split; apply N.leb_le; lia.
  - by rewrite Hx.
Qed.

(** Every PII pattern needs a decimal digit or an [@] to match: a text
    that holds neither is never flagged, and comes back unchanged. *)
Theorem pii_needs_digit_or_at (text : pystr) :
  Forall (fun c => digit_or_at c = false) text ->
  PiiCheck.detect_and_mask_pii text = (false, text).
Proof.
  intros Hfree. unfold PiiCheck.detect_and_mask_pii.
  destruct text as [| c text]; [done |].
  replace (existsb _ PiiCheck.PII_PATTERNS) with false; [done |].
  symmetry. apply not_true_is_false. intros Hex.
  apply existsb_exists in Hex as (pattern & Hin & Hsearch).
  assert (Hshape :
    forallb (fun pattern : string * re =>
               consumes (forallb digit_or_at_item) pattern.2)
      PiiCheck.PII_PATTERNS = true) by (vm_compute; reflexivity).
  rewrite forallb_forall in Hshape. specialize (Hshape pattern Hin).
  rewrite (search_consumes digit_or_at (forallb digit_or_at_item)
             digit_or_at_sound pattern.2 (c :: text) Hshape Hfree) in Hsearch.
  done.
Qed.

Lemma only_lt_sound (items : list citem) (x : N) :
  only_lt items = true ->
  existsb (in_item x) items = true -> (x =? c_ "<") = true.
Proof.
  destruct items as [| [c | | | |] [| ? ?]]; try done. simpl.
  intros Hc%N.eqb_eq. rewrite orb_false_r. intros Hx%N.eqb_eq.
  apply N.eqb_eq. congruence.
Qed.

(** Greedy [[^g]*] followed by [g]: over a run without [g] that ends
    at a [g], the loop takes the run and the continuation the [g]. *)
Lemma tag_body (g : N) (body tail : pystr) (R : Type) (k : ctx -> option R)
  (pr : option N) (cp : option pystr) :
  ~ In g body ->
  (forall pr', is_Some (k (Ctx pr' (g :: tail) cp))) ->
  is_Some (rmatch R (Star true (ncls [Ch g])) k
             (Ctx pr (body ++ g :: tail) cp)).
Proof.
  revert pr. induction body as [| x body IH]; intros pr Hnot Hk.
  - cbn [rmatch rest app length]. simpl. rewrite N.eqb_refl. simpl. apply Hk.
  - assert (Hx : (x =? g) = false).
    { apply N.eqb_neq. intros ->. apply Hnot. by left. }
    assert (Hbody : ~ In g body) by (intros ?; apply Hnot; by right).
    specialize (IH (Some x) Hbody Hk).
    cbn [rmatch rest app length] in IH |- *.
    simpl. simpl in IH. rewrite Hx. simpl.
    rewrite (proj2 (Nat.ltb_lt _ _)) by lia.
    destruct IH as [v Hv]. by rewrite Hv.
Qed.

(** The HTML screen in plain terms.  A message without [<] is never
    taken for HTML; a message that holds a [<], then at least one
    character, none of them [>], then a [>], always is. *)
Theorem html_tag_by_characters (message : pystr) :
  (~ In (c_ "<") message -> search html_tag_pattern message = false)
  /\ (forall before body after,
        message = before ++ c_ "<" :: body ++ c_ ">" :: after ->
        body <> [] -> ~ In (c_ ">") body ->
        search html_tag_pattern message = true).
Proof.
  split.
  - intros Hnot.
    apply (search_consumes (fun x => x =? c_ "<") only_lt only_lt_sound);
      [reflexivity |].
    apply List.Forall_forall. intros x Hin. apply N.eqb_neq. by intros ->.
  - intros before body after -> Hne Hnot.
    unfold search. apply bool_decide_eq_true.
    assert (Hgen : forall n pr,
      (length (before ++ c_ "<" :: body ++ c_ ">" :: after) <= n)%nat ->
      is_Some (search_at html_tag_pattern
                 (Ctx pr (before ++ c_ "<" :: body ++ c_ ">" :: after) None) n)).
    { induction before as [| y before IH]; intros n pr Hn.
      - assert (Hhere : is_Some
          (rmatch ctx html_tag_pattern Some
             (Ctx pr (c_ "<" :: body ++ c_ ">" :: after) None))).
        { destruct body as [| x body]; [done |].
          assert (Hx : (x =? c_ ">") = false).
          { apply N.eqb_neq. intros ->. apply Hnot. by left. }
          unfold html_tag_pattern, seqs, plus, chr. cbn [fold_right].
          cbn [rmatch rest cap app existsb in_item xorb].
          rewrite N.eqb_refl. cbn [orb xorb negb].
          unfold ncls at 1. cbn [rmatch rest cap existsb in_item xorb].
          rewrite Hx. cbn [orb xorb negb].
          apply (tag_body (c_ ">")).
          - intros ?; apply Hnot; by right.
          - intros pr'. unfold chr. cbn [rmatch rest cap existsb in_item xorb].
            rewrite N.eqb_refl. by eexists. }
        destruct Hhere as [c' Hc'].
        destruct n; cbn [search_at prev rest app]; rewrite Hc'; by eexists.
      - destruct n as [| n]; [simpl in Hn; lia |].
        cbn [search_at prev rest app].
        destruct (rmatch ctx html_tag_pattern Some _); [by eexists |].
        apply IH. simpl in Hn. simpl. lia. }
    apply Hgen. done.
Qed.

End Screens.

(** ** Further worked examples *)

Section MoreExamples.
Import Samples.

(** The task the webhook publishes for a content page, taken by the
    consumer. *)
Lemma published_task_is_processed_witness :
  exists data url,
    upsert_task = JObj data
    /\ assoc (of_string "url") data = Some (JStr url)
    /\ message_processing_callback (of_string "https://nation.example")
         some_page no_media all_ok (Some upsert_task) empty_store
       = ((process some_page no_media all_ok data url empty_store).1,
          ([match (process some_page no_media all_ok data url empty_store).2 with
            | inr _ => Ack
            | inl _ => Nack
            end], inr tt)).
Proof.
  apply (published_task_is_processed (of_string "https://nation.example")
           some_page no_media all_ok publish_all publish_all
           (JObj [(of_string "type", jstr "content");
                  (of_string "urls",
                   JObj [(of_string "en-us", JStr page_url)])])).
  vm_compute. left. reflexivity.
Defined.

(** The sample task changes the store, and its URL is allowed. *)
Lemma consumer_touches_only_allowed_witness :
  exists data url,
    Some upsert_task = Some (JObj data)
    /\ assoc (of_string "url") data = Some (JStr url)
    /\ startswith_any url (parse_prefixes (of_string "https://nation.example"))
       = true.
Proof.
  apply (consumer_touches_only_allowed (of_string "https://nation.example")
           some_page no_media all_ok (Some upsert_task) empty_store).
  intros Heq. apply (f_equal (fun s => length (files s))) in Heq.
  vm_compute in Heq. discriminate.
Defined.

Lemma page_url_encodable : encodable page_url.
Proof. repeat (constructor; [reflexivity |]). constructor. Qed.

Lemma page_stored_once :
  documents_for (url_hash page_url)
    (upsert_text_content all_ok (of_string "first text") page_url empty_store).1
  = [RagFile 0 (_create_safe_gcs_blob_name (url_hash page_url) page_url)].
Proof.
  rewrite upsert_text_documents; [reflexivity | discriminate |].
  exact (Nat.le_0_l 1).
Qed.

(** The sample page is in the store and every deletion call fails: the
    delete task is acked all the same, and the store is as it was, the
    document of the page still in the corpus. *)
Lemma delete_task_always_acked_witness :
  let stored :=
    (upsert_text_content all_ok (of_string "first text") page_url
       empty_store).1 in
  let r :=
    message_processing_callback (of_string "https://nation.example")
      no_page no_media deletes_down
      (Some (JObj [(of_string "action", jstr "delete");
                   (of_string "url", JStr page_url)])) stored in
  r.2 = ([Ack], inr tt)
  /\ r.1 = stored
  /\ count_documents (url_hash page_url) stored = 1%nat.
Proof.
  intros stored r.
  destruct (delete_task_always_acked (of_string "https://nation.example")
              no_page no_media deletes_down
              [(of_string "action", jstr "delete");
               (of_string "url", JStr page_url)] page_url stored
              page_url_encodable eq_refl eq_refl eq_refl)
    as (Hack & _ & Hstore).
  split; [exact Hack |]. split; [exact (Hstore eq_refl eq_refl) |].
  unfold count_documents, stored. by rewrite page_stored_once.
Defined.

(** A media file that does not load: the task is nacked. *)
Lemma failed_fetch_nacks_media_only_witness :
  message_processing_callback (of_string "https://nation.example")
    no_page no_media all_ok
    (Some (JObj [(of_string "action", jstr "upsert");
                 (of_string "url", JStr page_url);
                 (of_string "type", jstr "media")])) empty_store
  = (empty_store, ([Nack], inr tt)).
Proof.
  refine (proj1 (failed_fetch_nacks_media_only
                   (of_string "https://nation.example") no_page no_media all_ok
                   [(of_string "action", jstr "upsert");
                    (of_string "url", JStr page_url);
                    (of_string "type", jstr "media")] page_url empty_store
                   _ _ _) _ _); try reflexivity.
  by exists Unavailable.
Defined.

Lemma upsert_text_blob (text url : pystr) (s : store) :
  text <> [] ->
  bucket (upsert_text_content all_ok text url s).1
  !! _create_safe_gcs_blob_name (url_hash url) url
  = Some (Blob (Sha256.utf8 text) (of_string "text/plain; charset=utf-8")).
Proof.
  intros Hne. destruct text as [| c text]; [done |].
  rewrite upsert_text_ok. apply lookup_insert_eq.
Qed.

(** Another page is in the store; the sample page is then upserted: the
    document and the blob of the other page are still there. *)
Lemma operations_leave_other_urls_witness :
  let other := of_string "https://nation.example/other" in
  let stored :=
    (upsert_text_content all_ok (of_string "other text") other empty_store).1 in
  let after :=
    (upsert_text_content all_ok (of_string "first text") page_url stored).1 in
  documents_for (url_hash other) after
  = [RagFile 0 (_create_safe_gcs_blob_name (url_hash other) other)]
  /\ bucket after !! _create_safe_gcs_blob_name (url_hash other) other
     = Some (Blob (Sha256.utf8 (of_string "other text"))
               (of_string "text/plain; charset=utf-8")).
Proof.
  intros other stored after.
  destruct (operations_leave_other_urls all_ok (of_string "first text") page_url
              [] (url_hash other)
              (_create_safe_gcs_blob_name (url_hash other) other) stored after)
    as [Hdocs Hblob].
  - intros Heq. vm_compute in Heq. discriminate Heq.
  - intros Heq. vm_compute in Heq. discriminate Heq.
  - left. reflexivity.
  - rewrite Hdocs, Hblob. split.
    + unfold stored. rewrite upsert_text_documents; [reflexivity | discriminate |].
      exact (Nat.le_0_l 1).
    + apply upsert_text_blob. discriminate.
Defined.

(** The sample page is in the store and is deleted twice: the second
    delete returns and changes nothing. *)
Lemma delete_is_idempotent_witness :
  let stored :=
    (upsert_text_content all_ok (of_string "first text") page_url
       empty_store).1 in
  delete_document_by_url all_ok page_url
    (delete_document_by_url all_ok page_url stored).1
  = ((delete_document_by_url all_ok page_url stored).1, inr tt).
Proof.
  intros stored.
  refine (proj1 (delete_is_idempotent all_ok page_url stored
                   page_url_encodable _)).
  unfold count_documents, stored. rewrite page_stored_once. exact (le_n 1).
Defined.

(** The page is stored, then upserted again while uploads fail: the
    second upsert raises and the page has no document any more. *)
Lemma upsert_outcome_witness :
  match (upsert_text_content upload_down (of_string "second text") page_url
           (upsert_text_content all_ok (of_string "first text") page_url
              empty_store).1).2 with
  | inr _ => False
  | inl _ =>
      count_documents (url_hash page_url)
        (upsert_text_content upload_down (of_string "second text") page_url
           (upsert_text_content all_ok (of_string "first text") page_url
              empty_store).1).1
      = 0%nat
  end.
Proof.
  assert (Hone :
    (count_documents (url_hash page_url)
       (upsert_text_content all_ok (of_string "first text") page_url
          empty_store).1 <= 1)%nat).
  { unfold count_documents.
    rewrite upsert_text_documents;
      [exact (le_n 1) | discriminate | exact (Nat.le_0_l 1)]. }
  pose proof (upsert_outcome upload_down (of_string "second text") page_url
                (upsert_text_content all_ok (of_string "first text") page_url
                   empty_store).1
                ltac:(discriminate) eq_refl eq_refl Hone) as Hout.
  cbv zeta in Hout.
  destruct (upsert_text_content upload_down _ _ _).2 as [e | u].
  - exact (proj1 (proj2 Hout)).
  - destruct Hout as [Hup _]. discriminate Hup.
Defined.

(** The store after one upsert of the sample page. *)
Lemma documents_have_blobs_witness :
  Forall (fun file =>
            is_Some (bucket (upsert_text_content all_ok (of_string "first text")
                               page_url empty_store).1 !! display_name file)
            /\ exists url,
                 display_name file
                 = _create_safe_gcs_blob_name (url_hash url) url)
    (files (upsert_text_content all_ok (of_string "first text") page_url
              empty_store).1).
Proof.
  exact (documents_have_blobs _ (reach_text _ _ _ reach_empty)).
Defined.

(** Keywords with an underscore or an apostrophe never fire. *)
Lemma stripped_keyword_never_fires_witness :
  after_keyword_scan (U := ascii_only)
    [of_string "ignore_previous"; of_string "don't"]
    (of_string "Where is the clinic?")
  = of_string "Where is the clinic?".
Proof.
  apply (stripped_keyword_never_fires (U := ascii_only)).
  - constructor; [reflexivity |]. constructor; [reflexivity | constructor].
  - discriminate.
Defined.

(** A question without digit or [@]. *)
Lemma pii_needs_digit_or_at_witness :
  PiiCheck.detect_and_mask_pii (U := ascii_only) (of_string "Where is the clinic?")
  = (false, of_string "Where is the clinic?").
Proof.
  apply (pii_needs_digit_or_at (U := ascii_only)).
  repeat (constructor; [reflexivity |]). constructor.
Defined.

(** A message with a tag. *)
Lemma html_tag_by_characters_witness :
  search (U := ascii_only) html_tag_pattern (of_string "say <b>hi</b>") = true.
Proof.
  apply (proj2 (html_tag_by_characters (U := ascii_only)
                  (of_string "say <b>hi</b>"))
           (of_string "say ") (of_string "b") (of_string "hi</b>")).
  - reflexivity.
  - discriminate.
  - intros [Heq | []]. discriminate Heq.
Defined.

End MoreExamples.
